(** * waveForcast: the forecast-to-alert pipeline

    A shallow embedding of [src/index.js] (the SendGrid, cron-driven
    version) and of [src/unnamed/part_000] (the nodemailer version whose
    first line names it [wave-alert.js]), followed by the properties the
    specification states about them.

    JavaScript numbers are IEEE 754 binary64 values.  They are modelled with
    the Standard Library's [spec_float] at precision 53 and maximal exponent
    1024, so that [Math.round(m * 100)] is computed, bit for bit, as an
    engine computes it.  Timestamps are the integral millisecond counts
    of [Date]; they, and the cutoff computed from them, stay far below
    2^53, where binary64 arithmetic on integers is exact, and are modelled
    in [Z].

    Everything the code obtains from the engine or from the network is an
    explicit input: the services of the runtime (date parsing, calendar
    rendering in the configured time zone, number printing) are the fields
    of the class [Platform]; the clock reading, the HTTP outcome and the
    mail transport are arguments. *)

From Stdlib Require Import ZArith SpecFloat Sorted Ascii String DecimalString.
From stdpp Require Import base option list sorting strings.

Local Open Scope string_scope.
Local Open Scope Z_scope.
Local Open Scope list_scope.

(** ** Numbers *)

(** A Number is a [spec_float] in the canonical form of binary64
    ([valid_binary 53 1024]), which is the form every operation below
    returns; on that form [SFcompare] is the order of the values. *)

Module Number.

Definition prec : Z := 53.
Definition emax : Z := 1024.

(** The binary64 value nearest to the rational [num / den] ([den > 0],
    [num > 0]): what the engine reads a decimal literal or a JSON number
    as.  The quotient is rounded once, to nearest, ties to even. *)
Definition of_ratio (num den : Z) : spec_float :=
  let '(q, e, l) := SFdiv_core_binary prec emax num 0 den 0 in
  binary_round_aux prec emax false q e l.

(** An integer as a Number (exact below 2^53). *)
Definition of_Z (z : Z) : spec_float := binary_normalize prec emax z 0 false.

Definition mul : spec_float -> spec_float -> spec_float := SFmul prec emax.

(** [x > y] and [x >= y]; both are false as soon as one side is NaN. *)
Definition gt (x y : spec_float) : bool := SFltb y x.
Definition ge (x y : spec_float) : bool := SFleb y x.

Definition is_nan (x : spec_float) : bool :=
  match x with S754_nan => true | _ => false end.

(** [Math.round]: the integer nearest to [x], the larger one when two are
    equally near; an integral, infinite or NaN argument is returned as it
    is, and a result of zero keeps the sign of [x].  For a finite
    [x = (-1)^s * m * 2^e] with [e < 0] the value [floor (x + 1/2)] is
    computed exactly on integers. *)
Definition round (x : spec_float) : spec_float :=
  match x with
  | S754_finite s m e =>
      if 0 <=? e then x
      else binary_normalize prec emax
             ((2 * cond_Zopp s (Zpos m) + 2 ^ (- e)) / 2 ^ (1 - e)) 0 s
  | _ => x
  end.

End Number.

Abbreviation number := spec_float.

(** ** Errors and results *)

(** The errors the two programs can raise.  [message] is the [message]
    property the catch clauses print; the texts of the [TypeError]s are the
    ones V8 (Node.js) produces. *)
Inductive js_error : Type :=
  | ApiError (status : Z)
      (* throw new Error(`API error ${res.status}`) *)
  | FetchRejected (msg : string)
      (* the promise of fetch(url) rejected: no response at all *)
  | BodyRejected (msg : string)
      (* res.json() rejected: the body is not JSON *)
  | ReadOfUndefined (prop : string)
      (* TypeError: a property read on undefined *)
  | ReadIndexOfUndefined (i : nat)
      (* TypeError: an indexed read on undefined *)
  | ReduceOfEmpty
      (* TypeError: reduce of an empty array without initial value *)
  | MailRejected (msg : string).
      (* the mail transport rejected *)

Inductive result (A : Type) : Type :=
  | Ok (a : A)
  | Throw (e : js_error).
Arguments Ok {A} a.
Arguments Throw {A} e.

#[global] Instance result_ret : MRet result := fun A a => Ok a.
#[global] Instance result_bind : MBind result := fun A B f r =>
  match r with
  | Ok a => f a
  | Throw e => Throw e
  end.

(** [try { body } catch (err) { handler }]. *)
Definition try_catch {A} (body : result A) (handler : js_error -> result A) : result A :=
  match body with
  | Ok a => Ok a
  | Throw e => handler e
  end.

(** ** The runtime *)

Inductive weekday : Type := Sun | Mon | Tue | Wed | Thu | Fri | Sat.

(** The short weekday names of the locale ['en-IL']. *)
Definition weekday_name (d : weekday) : string :=
  match d with
  | Sun => "Sun" | Mon => "Mon" | Tue => "Tue" | Wed => "Wed"
  | Thu => "Thu" | Fri => "Fri" | Sat => "Sat"
  end.

Class Platform : Type := {
  (** [new Date(s).getTime()]; [None] stands for the NaN of an invalid
      date. *)
  date_value : string -> option Z;
  (** The day of the week of an instant, in the time zone [TZ]. *)
  weekday_in_tz : Z -> weekday;
  (** [toLocaleTimeString('en-IL', { hour: '2-digit', minute: '2-digit',
      timeZone: TZ })] of a valid date. *)
  time_in_tz : Z -> string;
  (** [String(x)], as a template literal applies it to a number. *)
  number_to_string : number -> string;
  (** [x.toFixed(3)]. *)
  toFixed3 : number -> string
}.

(** ** Data *)

(** What a read of [hourly.wave_height[i]] yields: a JSON number, the
    [null] the provider writes where it has no value, or [undefined] past
    the end of the array. *)
Inductive height : Type :=
  | HNum (x : number)
  | HNull
  | HUndefined.

(** The conversion the operators [>=], [>] and [*] apply to their
    operands: [null] becomes [+0] and [undefined] becomes NaN. *)
Definition ToNumber (h : height) : number :=
  match h with
  | HNum x => x
  | HNull => S754_zero false
  | HUndefined => S754_nan
  end.

(** The [hourly] object of the payload.  [None] stands for a property that
    is absent (reads as [undefined]). *)
Record hourly_data : Type := {
  time : option (list string);
  wave_height : option (list height)
}.

(** The parsed response body. *)
Record forecast : Type := {
  hourly : option hourly_data
}.

Record hit : Type := {
  iso : string;
  meters : height
}.

Record Location : Type := {
  name : string;
  lat : number;
  lon : number
}.

Record Config : Type := {
  THRESHOLD_METERS : number;
  LOOKAHEAD_DAYS : Z
}.

(** What the remote endpoint did with one request. *)
Inductive response_body : Type :=
  | NotJson (msg : string)
  | Json (payload : forecast).

Inductive fetch_outcome : Type :=
  | NoResponse (msg : string)
  | Response (ok : bool) (status : Z) (body : response_body).

(** ** Helpers shared by the two files *)

Section Helpers.
Context `{Platform}.

Definition message (e : js_error) : string :=
  match e with
  | ApiError status => "API error " +:+ number_to_string (Number.of_Z status)
  | FetchRejected msg => msg
  | BodyRejected msg => msg
  | ReadOfUndefined prop =>
      "Cannot read properties of undefined (reading '" +:+ prop +:+ "')"
  | ReadIndexOfUndefined i =>
      "Cannot read properties of undefined (reading '"
        +:+ number_to_string (Number.of_Z (Z.of_nat i)) +:+ "')"
  | ReduceOfEmpty => "Reduce of empty array with no initial value"
  | MailRejected msg => msg
  end.

(** [const metersToCm = m => Math.round(m * 100)] *)
Definition metersToCm (m : height) : number :=
  Number.round (Number.mul (ToNumber m) (Number.of_Z 100)).

(** [new Date(iso).toLocaleDateString('en-IL', { weekday: 'short',
    timeZone: TZ })] *)
Definition weekday_label (iso : string) : string :=
  match date_value iso with
  | Some t => weekday_name (weekday_in_tz t)
  | None => "Invalid Date"
  end.

(** [fmtHourLocal] *)
Definition fmtHourLocal (iso : string) : string :=
  match date_value iso with
  | Some t => time_in_tz t
  | None => "Invalid Date"
  end.

(** [fetchWaveForecast]: the only check is on [res.ok]; the parsed body is
    returned as it is. *)
Definition fetchWaveForecast (o : fetch_outcome) : result forecast :=
  match o with
  | NoResponse msg => Throw (FetchRejected msg)
  | Response ok status body =>
      if negb ok then Throw (ApiError status)
      else match body with
           | NotJson msg => Throw (BodyRejected msg)
           | Json payload => Ok payload
           end
  end.

(** [t > cutoff] for [t = new Date(time)]: the date is converted to its
    time value; the comparison is false for an invalid date. *)
Definition after (time : string) (cutoff : Z) : bool :=
  match date_value time with
  | Some t => cutoff <? t
  | None => false
  end.

Definition cutoff_of (now daysAhead : Z) : Z :=
  now + daysAhead * 24 * 3600 * 1000.

End Helpers.

(** ** Loops *)

(** [a.forEach((x, i) => ...)] with a callback that updates a state and may
    throw; a [return] inside the callback ends that call only. *)
Fixpoint forEach {A St : Type} (f : A -> nat -> St -> result St)
    (a : list A) (i : nat) (s : St) : result St :=
  match a with
  | [] => Ok s
  | x :: a' => s' ← f x i s; forEach f a' (S i) s'
  end.

(** [for (let i = 0; i < a.length; i++) { ... }] with a body that may
    [break]. *)
Inductive flow (St : Type) : Type :=
  | Next (s : St)
  | Break (s : St).
Arguments Next {St} s.
Arguments Break {St} s.

Fixpoint for_index {A St : Type} (body : A -> nat -> St -> result (flow St))
    (a : list A) (i : nat) (s : St) : result St :=
  match a with
  | [] => Ok s
  | x :: a' =>
      r ← body x i s;
      match r with
      | Next s' => for_index body a' (S i) s'
      | Break s' => Ok s'
      end
  end.

(** A property read [o.p] on a value that may be [undefined]. *)
Definition read {A : Type} (o : option A) (p : string) : result A :=
  match o with
  | Some a => Ok a
  | None => Throw (ReadOfUndefined p)
  end.

(** An indexed read [o[i]] on an array that may be [undefined]; past the
    end of an array the element read is [undefined]. *)
Definition read_index (o : option (list height)) (i : nat) : result height :=
  match o with
  | Some a => Ok (default HUndefined (a !! i))
  | None => Throw (ReadIndexOfUndefined i)
  end.

Definition newline : string := String "010"%char EmptyString.

(** ** Grouping and peaks *)

(** The object [grouped]: its own properties, in the order in which they
    were created, which is the order [Object.entries] lists them in (the
    keys are weekday names or ["Invalid Date"], never array indices, and
    never names inherited from [Object.prototype]). *)
Definition day_groups : Type := list (string * list hit).

(** [acc[day] = acc[day] || []; acc[day].push(h)] *)
Fixpoint push_day (day : string) (h : hit) (acc : day_groups) : day_groups :=
  match acc with
  | [] => [(day, [h])]
  | (d, arr) :: rest =>
      if String.eqb d day then (d, arr ++ [h]) :: rest
      else (d, arr) :: push_day day h rest
  end.

(** [(a, b) => (a.meters > b.meters ? a : b)] *)
Definition higher (a b : hit) : hit :=
  if Number.gt (ToNumber (meters a)) (ToNumber (meters b)) then a else b.

(** [arr.reduce(f)] without an initial value. *)
Definition reduce (f : hit -> hit -> hit) (arr : list hit) : result hit :=
  match arr with
  | [] => Throw ReduceOfEmpty
  | a :: rest => Ok (fold_left f rest a)
  end.

Section Reporter.
Context `{Platform}.

(** [hits.reduce((acc, h) => { ... }, {})] in [src/index.js]; the
    [for (const h of hits)] loop of [src/unnamed/part_000] builds the
    same object. *)
Definition group_by_day (hits : list hit) : day_groups :=
  fold_left (fun acc h => push_day (weekday_label (iso h)) h acc) hits [].

(** The callback of [Object.entries(grouped).map]. *)
Definition peak_line (entry : string * list hit) : result string :=
  let '(day, arr) := entry in
  max ← reduce higher arr;
  Ok ("- " +:+ day +:+ ": peak ~" +:+ number_to_string (metersToCm (meters max))
        +:+ " cm at " +:+ fmtHourLocal (iso max)).

(** The two files differ in the detector and in the bytes of two
    signs. *)
Variable detect : Z -> option hourly_data -> number -> Z -> result (list hit).
Variable WAVE : string.
Variable GE : string.

Definition no_waves_line (cfg : Config) (loc : Location) : string :=
  "[" +:+ name loc +:+ "] No waves " +:+ GE +:+ " "
    +:+ number_to_string (THRESHOLD_METERS cfg) +:+ "m in next "
    +:+ number_to_string (Number.of_Z (LOOKAHEAD_DAYS cfg)) +:+ " days".

Definition error_line (loc : Location) (err : js_error) : string :=
  "[" +:+ name loc +:+ "] Error: " +:+ message err.

Definition header_line (loc : Location) : string :=
  WAVE +:+ " " +:+ name loc +:+ " (Lat/Lon: " +:+ toFixed3 (lat loc)
    +:+ ", " +:+ toFixed3 (lon loc) +:+ ")".

Definition threshold_line (cfg : Config) : string :=
  "Threshold: "
    +:+ number_to_string
          (Number.round (Number.mul (THRESHOLD_METERS cfg) (Number.of_Z 100)))
    +:+ " cm".

(** The [try] block of [checkLocation]. *)
Definition try_block (cfg : Config) (loc : Location)
    (o : fetch_outcome) (now : Z) : result string :=
  forecast ← fetchWaveForecast o;
  hits ← detect now (hourly forecast) (THRESHOLD_METERS cfg) (LOOKAHEAD_DAYS cfg);
  match hits with
  | [] => Ok (no_waves_line cfg loc)
  | _ :: _ =>
      let grouped := group_by_day hits in
      lines ← mapM peak_line grouped;
      Ok (String.concat newline (header_line loc :: threshold_line cfg :: lines))
  end.

(** [checkLocation]: the whole body is inside [try]; the handler returns
    the error line. *)
Definition checkLocation_with (cfg : Config) (loc : Location)
    (o : fetch_outcome) (now : Z) : result string :=
  try_catch (try_block cfg loc o now) (fun err => Ok (error_line loc err)).

End Reporter.

(** ** A run *)

(** What one location meets during a run: the outcome of its request, and
    the reading of [Date.now()] when its detector runs. *)
Record observation : Type := {
  outcome : fetch_outcome;
  clock : Z
}.

(** What a run does that can be seen from outside. *)
Inductive event : Type :=
  | Checking (locations : nat)      (* the first console line *)
  | Mail (text : string)            (* the transport is called with this text *)
  | MailSent                        (* the console line after a delivery *)
  | MailError (msg : string)        (* console.error('[MAIL] Error:', ...) *)
  | Unhandled (msg : string).       (* the promise of runOnce rejects *)

Definition blank_line : string := newline +:+ newline.

(** ** [src/index.js] *)

Module IndexJs.
Section Program.
Context `{Platform}.

(** The callback of [hourly.time.forEach]. *)
Definition visit (hourly : hourly_data) (threshold : number) (cutoff : Z)
    (time : string) (i : nat) (hits : list hit) : result (list hit) :=
  if after time cutoff then Ok hits
  else
    v ← read_index (wave_height hourly) i;
    if Number.ge (ToNumber v) threshold
    then Ok (hits ++ [{| iso := time; meters := v |}])
    else Ok hits.

Definition nextExceedances (now : Z) (hourly : option hourly_data)
    (threshold : number) (daysAhead : Z) : result (list hit) :=
  let cutoff := cutoff_of now daysAhead in
  h ← read hourly "time";
  times ← read (time h) "forEach";
  forEach (visit h threshold cutoff) times 0%nat [].

Definition WAVE : string := "ðŸŒŠ".
Definition GE : string := "â‰¥".

Definition checkLocation : Config -> Location -> fetch_outcome -> Z -> result string :=
  checkLocation_with nextExceedances WAVE GE.

(** [runOnce]: the reports are awaited together ([Promise.all] keeps the
    order of [LOCATIONS] and rejects as soon as one report rejects), and
    one [try] covers them and the mail.  The reports share no state, so
    the order in which their awaits resume does not show in the result:
    each one is a function of its own observation. *)
Definition runOnce (cfg : Config) (send : string -> result unit)
    (run : list (Location * observation)) : list event :=
  Checking (length run) ::
  match mapM (fun '(loc, obs) => checkLocation cfg loc (outcome obs) (clock obs)) run with
  | Ok reports =>
      let msg := String.concat blank_line reports in
      Mail msg ::
      match send msg with
      | Ok _ => [MailSent]
      | Throw err => [MailError (message err)]
      end
  | Throw err => [MailError (message err)]
  end.

End Program.
End IndexJs.

(** ** [src/unnamed/part_000] *)

Module WaveAlert.
Section Program.
Context `{Platform}.

(** The body of the [for] loop. *)
Definition visit (hourly : hourly_data) (threshold : number) (cutoff : Z)
    (time : string) (i : nat) (hits : list hit) : result (flow (list hit)) :=
  if after time cutoff then Ok (Break hits)
  else
    v ← read_index (wave_height hourly) i;
    if Number.ge (ToNumber v) threshold
    then Ok (Next (hits ++ [{| iso := time; meters := v |}]))
    else Ok (Next hits).

Definition nextExceedances (now : Z) (hourly : option hourly_data)
    (threshold : number) (daysAhead : Z) : result (list hit) :=
  let cutoff := cutoff_of now daysAhead in
  h ← read hourly "time";
  times ← read (time h) "length";
  for_index (visit h threshold cutoff) times 0%nat [].

Definition WAVE : string := "🌊".
Definition GE : string := "≥".

Definition checkLocation : Config -> Location -> fetch_outcome -> Z -> result string :=
  checkLocation_with nextExceedances WAVE GE.

(** [runOnce]: the reports are awaited one after the other, outside any
    [try]; [sendMail] catches the failure of the transport itself. *)
Definition runOnce (cfg : Config) (send : string -> result unit)
    (run : list (Location * observation)) : list event :=
  Checking (length run) ::
  match mapM (fun '(loc, obs) => checkLocation cfg loc (outcome obs) (clock obs)) run with
  | Ok reports =>
      let msg := String.concat blank_line reports in
      Mail msg ::
      match send msg with
      | Ok _ => [MailSent]
      | Throw err => [MailError (message err)]
      end
  | Throw err => [Unhandled (message err)]
  end.

End Program.
End WaveAlert.


(** ** A concrete runtime

    An engine whose time zone is UTC, as far as the programs use it.  It
    gives the examples below a runtime to evaluate on; no general statement
    depends on it.  [number_to_string] and [toFixed3] follow the algorithms
    of ECMA-262 ([Number::toString], [Number.prototype.toFixed]) on the
    exact rational value of a binary64 number; [date_value] reads the
    timestamps of the provider, [YYYY-MM-DDTHH:MM], and takes any other
    text as unparseable. *)

Module Utc.

Definition decimal (n : Z) : string := NilZero.string_of_int (Z.to_int n).

Fixpoint zeros (n : nat) : string :=
  match n with
  | O => EmptyString
  | S n' => String "0"%char (zeros n')
  end.

(** *** Dates *)

Definition digit (c : ascii) : option Z :=
  let n := Z.of_nat (nat_of_ascii c) in
  if (48 <=? n) && (n <=? 57) then Some (n - 48) else None.

Fixpoint digits_value (cs : list ascii) (acc : Z) : option Z :=
  match cs with
  | [] => Some acc
  | c :: cs' => d ← digit c; digits_value cs' (10 * acc + d)
  end.

(** Days from 1970-01-01 to the given date of the proleptic Gregorian
    calendar. *)
Definition days_from_civil (y m d : Z) : Z :=
  let y' := if m <=? 2 then y - 1 else y in
  let era := y' / 400 in
  let yoe := y' - era * 400 in
  let doy := (153 * (if 2 <? m then m - 3 else m + 9) + 2) / 5 + d - 1 in
  let doe := yoe * 365 + yoe / 4 - yoe / 100 + doy in
  era * 146097 + doe - 719468.

Definition is_leap (y : Z) : bool :=
  ((y mod 4 =? 0) && negb (y mod 100 =? 0)) || (y mod 400 =? 0).

Definition days_in_month (y m : Z) : Z :=
  if m =? 2 then (if is_leap y then 29 else 28)
  else if (m =? 4) || (m =? 6) || (m =? 9) || (m =? 11) then 30
  else 31.

Definition date_value (s : string) : option Z :=
  match list_ascii_of_string s with
  | [y1; y2; y3; y4; "-"%char; m1; m2; "-"%char; d1; d2; "T"%char;
     h1; h2; ":"%char; n1; n2] =>
      y ← digits_value [y1; y2; y3; y4] 0;
      m ← digits_value [m1; m2] 0;
      d ← digits_value [d1; d2] 0;
      h ← digits_value [h1; h2] 0;
      n ← digits_value [n1; n2] 0;
      if (1 <=? m) && (m <=? 12) && (1 <=? d) && (d <=? days_in_month y m)
         && (h <=? 23) && (n <=? 59)
      then Some ((days_from_civil y m d * 1440 + h * 60 + n) * 60000)
      else None
  | _ => None
  end.

Definition weekday_in_tz (t : Z) : weekday :=
  match (t / 86400000 + 4) mod 7 with
  | 0 => Sun | 1 => Mon | 2 => Tue | 3 => Wed | 4 => Thu | 5 => Fri | _ => Sat
  end.

Definition two_digits (n : Z) : string :=
  if n <? 10 then "0" +:+ decimal n else decimal n.

Definition time_in_tz (t : Z) : string :=
  let minute_of_day := (t / 60000) mod 1440 in
  two_digits (minute_of_day / 60) +:+ ":" +:+ two_digits (minute_of_day mod 60).

(** *** Numbers *)

(** [r / 10^p] for the rational [r = num / den], as a fraction. *)
Definition scaled (num den p : Z) : Z * Z :=
  if 0 <=? p then (num, den * 10 ^ p) else (num * 10 ^ (- p), den).

(** The least [n], from [n0] on, with [num / den < 10^n]. *)
Fixpoint decade (fuel : nat) (n0 num den : Z) : Z :=
  match fuel with
  | O => n0
  | S fuel' =>
      let '(a, b) := scaled num den n0 in
      if a <? b then n0 else decade fuel' (n0 + 1) num den
  end.

(** The Number that the decimal [s * 10^p] denotes. *)
Definition of_decimal (s p : Z) : number :=
  if 0 <=? p then Number.of_ratio (s * 10 ^ p) 1 else Number.of_ratio s (10 ^ (- p)).

(** The [k]-digit decimals nearest to [num / den], when one of them
    denotes [x]: its digits [s] and its decade [n]. *)
Definition with_digits (x : number) (num den n k : Z) : option (Z * Z) :=
  let p := n - k in
  let '(a, b) := scaled num den p in
  let lo := a / b in
  let rem := a mod b in
  let fits s := SFeqb (of_decimal s p) x in
  let norm s := if s =? 10 ^ k then (10 ^ (k - 1), n + 1) else (s, n) in
  if rem =? 0 then (if fits lo then Some (norm lo) else None)
  else
    let lo_first := (2 * rem <? b) || ((2 * rem =? b) && Z.even lo) in
    let s1 := if lo_first then lo else lo + 1 in
    let s2 := if lo_first then lo + 1 else lo in
    if fits s1 then Some (norm s1)
    else if fits s2 then Some (norm s2)
    else None.

Fixpoint shortest (fuel : nat) (x : number) (num den n k : Z) : Z * Z * Z :=
  match fuel with
  | O => (num / den, k, n)
  | S fuel' =>
      match with_digits x num den n k with
      | Some (s, n') => (s, k, n')
      | None => shortest fuel' x num den n (k + 1)
      end
  end.

Definition layout (s k n : Z) : string :=
  let ds := decimal s in
  if (k <=? n) && (n <=? 21) then ds +:+ zeros (Z.to_nat (n - k))
  else if (0 <? n) && (n <=? 21)
  then substring 0 (Z.to_nat n) ds +:+ "." +:+ substring (Z.to_nat n) (Z.to_nat (k - n)) ds
  else if (-6 <? n) && (n <=? 0) then "0." +:+ zeros (Z.to_nat (- n)) +:+ ds
  else
    let e := n - 1 in
    let mantissa :=
      if k =? 1 then ds
      else substring 0 1 ds +:+ "." +:+ substring 1 (Z.to_nat (k - 1)) ds in
    mantissa +:+ "e" +:+ (if e <? 0 then "-" else "+") +:+ decimal (Z.abs e).

Definition positive_to_string (m : positive) (e : Z) : string :=
  let x := S754_finite false m e in
  let '(num, den) := if 0 <=? e then (Zpos m * 2 ^ e, 1) else (Zpos m, 2 ^ (- e)) in
  let n := decade 700 (-330) num den in
  let '(s, k, n') := shortest 17 x num den n 1 in
  layout s k n'.

Definition number_to_string (x : number) : string :=
  match x with
  | S754_nan => "NaN"
  | S754_zero _ => "0"
  | S754_infinity s => if s then "-Infinity" else "Infinity"
  | S754_finite s m e =>
      (if s then "-" else EmptyString) +:+ positive_to_string m e
  end.

Definition toFixed3 (x : number) : string :=
  match x with
  | S754_zero _ => "0.000"
  | S754_finite s m e =>
      let '(num, den) := if 0 <=? e then (Zpos m * 2 ^ e, 1) else (Zpos m, 2 ^ (- e)) in
      if 10 ^ 21 * den <=? num then number_to_string x
      else
        let n := (2 * 1000 * num + den) / (2 * den) in
        let ds := decimal n in
        let ds := zeros (4 - String.length ds) +:+ ds in
        let whole := (String.length ds - 3)%nat in
        (if s then "-" else EmptyString) +:+ substring 0 whole ds +:+ "." +:+ substring whole 3 ds
  | _ => number_to_string x
  end.

Definition platform : Platform :=
  Build_Platform date_value weekday_in_tz time_in_tz number_to_string toFixed3.

End Utc.

(** ** Text and the values read from the environment

    A string is the sequence of the bytes of its UTF-8 encoding.  The
    separators the programs split on are single bytes, which never occur
    inside the encoding of another character, so splitting the bytes is
    splitting the text. *)

Module Text.

(** The UTF-8 encodings of the code points that [trim], [parseFloat] and
    [parseInt] skip: the WhiteSpace and LineTerminator of ECMA-262. *)
Definition white_space : list (list ascii) :=
  (fun bytes : list nat => ascii_of_nat <$> bytes) <$>
  [[9]; [10]; [11]; [12]; [13]; [32];
   [194; 160];
   [225; 154; 128];
   [226; 128; 128]; [226; 128; 129]; [226; 128; 130]; [226; 128; 131];
   [226; 128; 132]; [226; 128; 133]; [226; 128; 134]; [226; 128; 135];
   [226; 128; 136]; [226; 128; 137]; [226; 128; 138];
   [226; 128; 168]; [226; 128; 169];
   [226; 128; 175];
   [226; 129; 159];
   [227; 128; 128];
   [239; 187; 191]]%nat.

(** Removes, as long as there is one, a token at the head of the text. *)
Fixpoint strip (tokens : list (list ascii)) (fuel : nat) (l : list ascii) : list ascii :=
  match fuel with
  | O => l
  | S fuel' =>
      match list_find (fun t => t `prefix_of` l) tokens with
      | Some (_, t) => strip tokens fuel' (drop (length t) l)
      | None => l
      end
  end.

Definition trimStart_bytes (l : list ascii) : list ascii :=
  strip white_space (length l) l.

Definition trimEnd_bytes (l : list ascii) : list ascii :=
  reverse (strip (reverse <$> white_space) (length l) (reverse l)).

(** [s.trim()] *)
Definition trim (s : string) : string :=
  string_of_list_ascii (trimEnd_bytes (trimStart_bytes (list_ascii_of_string s))).

(** [s.split(sep)] for a separator of one character: never an empty
    array. *)
Fixpoint split (sep : ascii) (s : string) : list string :=
  match s with
  | EmptyString => [EmptyString]
  | String c s' =>
      if Ascii.eqb c sep then EmptyString :: split sep s'
      else match split sep s' with
           | [] => [String c EmptyString]
           | w :: ws => String c w :: ws
           end
  end.

(** [a.join(sep)] *)
Definition join (sep : string) (a : list string) : string := String.concat sep a.

(** *** Numbers in text *)

Definition is_digit (c : ascii) : bool :=
  let n := Z.of_nat (nat_of_ascii c) in (48 <=? n) && (n <=? 57).

Definition digit_value (c : ascii) : Z := Z.of_nat (nat_of_ascii c) - 48.

(** The decimal digits at the head of the text, and what follows them. *)
Fixpoint digits (l : list ascii) : list ascii * list ascii :=
  match l with
  | c :: l' =>
      if is_digit c then let '(ds, rest) := digits l' in (c :: ds, rest)
      else ([], l)
  | [] => ([], [])
  end.

Definition digits_value (ds : list ascii) : Z :=
  fold_left (fun acc c => 10 * acc + digit_value c) ds 0.

(** An optional sign at the head of the text: whether it is [-], and
    what follows. *)
Definition sign (l : list ascii) : bool * list ascii :=
  match l with
  | "-"%char :: l' => (true, l')
  | "+"%char :: l' => (false, l')
  | _ => (false, l)
  end.

(** The Number nearest to [m * 10^e], for [m >= 0]; what lies beyond
    the range of binary64 on either side needs no power of ten. *)
Definition of_decimal (negative : bool) (m e : Z) : number :=
  if m =? 0 then S754_zero negative
  else
    let size := Z.of_nat (String.length (NilZero.string_of_int (Z.to_int m))) + e in
    if 400 <? size then S754_infinity negative
    else if size <? -400 then S754_zero negative
    else
      let x := if 0 <=? e then Number.of_ratio (m * 10 ^ e) 1
               else Number.of_ratio m (10 ^ (- e)) in
      if negative then SFopp x else x.

(** The value of an exponent part [e<sign><digits>] at the head of the
    text, 0 when there is none. *)
Definition exponent (l : list ascii) : Z :=
  match l with
  | c :: l' =>
      if Ascii.eqb c "e" || Ascii.eqb c "E" then
        let '(negative, l'') := sign l' in
        let '(ds, _) := digits l'' in
        match ds with
        | [] => 0
        | _ => if negative then - digits_value ds else digits_value ds
        end
      else 0
  | [] => 0
  end.

(** [parseFloat(s)]: the longest prefix of the text, after leading white
    space, that is a decimal literal; NaN when there is none. *)
Definition parseFloat (s : string) : number :=
  let l := trimStart_bytes (list_ascii_of_string s) in
  let '(negative, l) := sign l in
  if bool_decide (list_ascii_of_string "Infinity" `prefix_of` l)
  then S754_infinity negative
  else
    let '(whole, rest) := digits l in
    let '(fraction, rest) :=
      match rest with
      | "."%char :: rest' => digits rest'
      | _ => ([], rest)
      end in
    match whole ++ fraction with
    | [] => S754_nan
    | ds => of_decimal negative (digits_value ds)
              (exponent rest - Z.of_nat (length fraction))
    end.

(** [parseInt(s, 10)]: the integer the decimal digits after the white
    space and the sign denote, [None] (NaN) when there are none.  The
    engine returns the Number nearest to that integer, which is the integer
    itself below 2^53.  The sign of a zero is not kept: both zeros are
    falsy. *)
Definition parseInt (s : string) : option Z :=
  let l := trimStart_bytes (list_ascii_of_string s) in
  let '(negative, l) := sign l in
  let '(ds, _) := digits l in
  match ds with
  | [] => None
  | _ => Some (if negative then - digits_value ds else digits_value ds)
  end.

(** [String(v)] of a value that may be [undefined]. *)
Definition ToString (v : option string) : string := default "undefined" v.

End Text.

(** ** The constants [src/index.js] reads from the environment *)

Module Env.

(** [x || d] for Numbers: NaN and the two zeros are falsy. *)
Definition number_or (x d : number) : number :=
  match x with
  | S754_nan | S754_zero _ => d
  | _ => x
  end.

(** [s || d] for strings that may be [undefined]. *)
Definition string_or (s : option string) (d : string) : string :=
  match s with
  | Some (String c s') => String c s'
  | _ => d
  end.

(** [parseFloat(process.env.THRESHOLD_METERS) || 0.8] *)
Definition THRESHOLD_METERS (v : option string) : number :=
  number_or (Text.parseFloat (Text.ToString v)) (Number.of_ratio 8 10).

(** [parseInt(process.env.LOOKAHEAD_DAYS, 10) || 2] *)
Definition LOOKAHEAD_DAYS (v : option string) : Z :=
  match Text.parseInt (Text.ToString v) with
  | Some 0 | None => 2
  | Some days => days
  end.

(** [process.env.TZ || 'Asia/Jerusalem'] *)
Definition TZ (v : option string) : string := string_or v "Asia/Jerusalem".

(** [process.env.CRON_SCHEDULE || '0 18 * * *'] *)
Definition CRON_SCHEDULE (v : option string) : string := string_or v "0 18 * * *".

(** The callback of [.map] in [LOCATIONS]: the first three fields of
    [str.split('|')]; a field that is not there is [undefined]. *)
Definition location_of (str : string) : Location :=
  let fields := Text.split "|" str in
  {| name := default EmptyString (fields !! 0%nat);
     lat := Text.parseFloat (Text.ToString (fields !! 1%nat));
     lon := Text.parseFloat (Text.ToString (fields !! 2%nat)) |}.

(** The callback of [.filter] in [LOCATIONS]. *)
Definition located (loc : Location) : Prop :=
  name loc <> EmptyString /\ Number.is_nan (lat loc) = false
  /\ Number.is_nan (lon loc) = false.

#[global] Instance located_dec loc : Decision (located loc).
Proof. unfold located. apply _. Defined.

(** [LOCATIONS] *)
Definition LOCATIONS (v : option string) : list Location :=
  filter located (location_of <$> Text.split "," (string_or v EmptyString)).

(** [RECIPIENTS], the same in the two files. *)
Definition RECIPIENTS (v : option string) : list string :=
  filter (fun email => email <> EmptyString)
    (Text.trim <$> Text.split "," (string_or v EmptyString)).

Definition config (threshold days : option string) : Config :=
  Build_Config (THRESHOLD_METERS threshold) (LOOKAHEAD_DAYS days).

End Env.

(** ** The vocabulary of the properties *)

Section Vocabulary.
Context `{Platform}.

(** The hours of a series: the timestamps paired with the heights,
    position by position. *)
Definition hours (ts : list string) (hs : list height) : list hit :=
  zip_with (fun t h => {| iso := t; meters := h |}) ts hs.

(** [height >= threshold] *)
Definition exceeds (threshold : number) (h : hit) : bool :=
  Number.ge (ToNumber (meters h)) threshold.

(** [timestamp <= cutoff]; false, as every comparison is, for a
    timestamp that is no date. *)
Definition within (cutoff : Z) (h : hit) : bool :=
  match date_value (iso h) with
  | Some t => t <=? cutoff
  | None => false
  end.

(** Every timestamp of the series is a date. *)
Definition well_dated (ts : list string) : Prop :=
  Forall (fun s => is_Some (date_value s)) ts.

(** The timestamps are dates in non-decreasing order. *)
Definition ascending (ts : list string) : Prop :=
  exists zs, date_value <$> ts = Some <$> zs /\ Sorted Z.le zs.

(** The hours up to, and without, the first one after the cutoff. *)
Fixpoint until_after (cutoff : Z) (ts : list string) : list string :=
  match ts with
  | [] => []
  | t :: ts' => if after t cutoff then [] else t :: until_after cutoff ts'
  end.

(** Once an hour is after the cutoff, so are all the later ones. *)
Fixpoint settled (cutoff : Z) (ts : list string) : Prop :=
  match ts with
  | [] => True
  | t :: ts' =>
      (after t cutoff = true -> Forall (fun t' => after t' cutoff = true) ts')
      /\ settled cutoff ts'
  end.

Definition series (ts : list string) (hs : list height) : option hourly_data :=
  Some {| time := Some ts; wave_height := Some hs |}.

(** No height of the bucket is NaN. *)
Definition comparable (arr : list hit) : Prop :=
  Forall (fun h => Number.is_nan (ToNumber (meters h)) = false) arr.

(** [x <= y] on the heights of two hits. *)
Definition le_meters (a b : hit) : Prop :=
  Number.ge (ToNumber (meters b)) (ToNumber (meters a)) = true.

Definition lt_meters (a b : hit) : Prop :=
  Number.gt (ToNumber (meters b)) (ToNumber (meters a)) = true.

(** [grouped[day]] *)
Fixpoint lookup_day (day : string) (g : day_groups) : option (list hit) :=
  match g with
  | [] => None
  | (d, arr) :: rest => if String.eqb d day then Some arr else lookup_day day rest
  end.

(** The hits of a list that fall on the weekday [day]. *)
Definition on_day (day : string) (hits : list hit) : list hit :=
  filter (fun h => weekday_label (iso h) = day) hits.

(** The text of the peak line for the bucket [day] with peak [max]. *)
Definition peak_text (day : string) (max : hit) : string :=
  "- " +:+ day +:+ ": peak ~" +:+ number_to_string (metersToCm (meters max))
    +:+ " cm at " +:+ fmtHourLocal (iso max).

(** What [checkLocation] returns, read off the outcome of its [try]
    block. *)
Definition block_of (body : result string) (loc : Location) : string :=
  match body with
  | Ok text => text
  | Throw err => error_line loc err
  end.

(** The texts a run of [src/index.js] collects, one for each location. *)
Definition blocks (cfg : Config) (run : list (Location * observation)) : list string :=
  (fun '(loc, obs) =>
     block_of (try_block IndexJs.nextExceedances IndexJs.WAVE IndexJs.GE
                 cfg loc (outcome obs) (clock obs)) loc) <$> run.

(** The response with status 200 that carries the given series. *)
Definition delivers (ts : list string) (hs : list height) : fetch_outcome :=
  Response true 200 (Json {| hourly := series ts hs |}).

End Vocabulary.

(** ** Sample data

    The configuration and the locations are the constants of
    [src/unnamed/part_000]; the clock reads 2024-05-01T00:00 UTC, so that
    the cutoff of a two-day lookahead is 2024-05-03T00:00. *)

Module Sample.

Definition cfg : Config :=
  {| THRESHOLD_METERS := Number.of_ratio 8 10; LOOKAHEAD_DAYS := 2 |}.

Definition tel_aviv : Location :=
  {| name := "Tel Aviv";
     lat := Number.of_ratio 320809 10000; lon := Number.of_ratio 347806 10000 |}.
Definition haifa : Location :=
  {| name := "Haifa";
     lat := Number.of_ratio 327940 10000; lon := Number.of_ratio 349896 10000 |}.
Definition ashdod : Location :=
  {| name := "Ashdod";
     lat := Number.of_ratio 318014 10000; lon := Number.of_ratio 346435 10000 |}.

Definition now : Z := 1714521600000.

(** A height given in centimetres, as the JSON number of that many
    hundredths of a metre. *)
Definition cm (n : Z) : height := HNum (Number.of_ratio n 100).

(** Two days with two exceedances each, a calm hour before them and a
    high one after the cutoff. *)
Definition times : list string :=
  ["2024-05-01T03:00"; "2024-05-01T06:00"; "2024-05-01T12:00";
   "2024-05-02T06:00"; "2024-05-02T12:00"; "2024-05-04T00:00"].
Definition heights : list height :=
  [cm 50; cm 90; cm 120; cm 150; cm 110; cm 200].
Definition time_values : list Z :=
  [1714532400000; 1714543200000; 1714564800000;
   1714629600000; 1714651200000; 1714780800000].

(** The same provider data with the late hour listed first. *)
Definition shuffled_times : list string :=
  ["2024-05-04T00:00"; "2024-05-01T06:00"].
Definition shuffled_heights : list height := [cm 200; cm 90].

(** A calm sea. *)
Definition calm_heights : list height :=
  [cm 50; cm 60; cm 70; cm 79; cm 40; cm 200].

(** Hits of two Wednesdays, a week apart, and of the Thursday between
    them. *)
Definition wed_1 : hit := {| iso := "2024-05-01T06:00"; meters := cm 90 |}.
Definition thu_2 : hit := {| iso := "2024-05-02T06:00"; meters := cm 150 |}.
Definition wed_8 : hit := {| iso := "2024-05-08T12:00"; meters := cm 120 |}.
Definition two_weeks : list hit := [wed_1; thu_2; wed_8].

(** Two hits of one day with the same height. *)
Definition tie_early : hit := {| iso := "2024-05-01T06:00"; meters := cm 120 |}.
Definition tie_late : hit := {| iso := "2024-05-01T12:00"; meters := cm 120 |}.

(** One run over the three locations: the first meets the sample
    series, the request of the second is answered with status 500, the
    third meets the calm sea. *)
Definition failing : observation :=
  {| outcome := Response false 500 (NotJson "Internal Server Error"); clock := now |}.

End Sample.


(** ** The vocabulary of the properties of the text functions *)

Section TextVocabulary.

(** The bytes of a string. *)
Definition bytes (s : string) : list ascii := list_ascii_of_string s.

(** [trim] on the bytes. *)
Definition trim_bytes (l : list ascii) : list ascii :=
  Text.trimEnd_bytes (Text.trimStart_bytes l).

(** The text begins, or ends, with a white space character. *)
Definition starts_with_space (s : string) : Prop :=
  Exists (fun t => t `prefix_of` bytes s) Text.white_space.
Definition ends_with_space (s : string) : Prop :=
  Exists (fun t => t `suffix_of` bytes s) Text.white_space.

(** What an entry of [RECIPIENTS] looks like. *)
Definition clean (email : string) : Prop :=
  email <> EmptyString /\ ~ starts_with_space email /\ ~ ends_with_space email
  /\ (","%char ∉ bytes email).

#[global] Instance clean_dec email : Decision (clean email).
Proof. unfold clean, starts_with_space, ends_with_space. apply _. Defined.

(** A field of an entry of [LOCATIONS]: free of both separators. *)
Definition field (s : string) : Prop :=
  (","%char ∉ bytes s) /\ ("|"%char ∉ bytes s).

#[global] Instance field_dec s : Decision (field s).
Proof. unfold field. apply _. Defined.

(** The keys in the order in which they are first seen. *)
Definition first_seen (keys : list string) : list string :=
  fold_left (fun seen k => if decide (k ∈ seen) then seen else seen ++ [k]) keys [].

(** The labels a bucket can carry. *)
Definition day_labels : list string :=
  "Invalid Date" :: (weekday_name <$> [Sun; Mon; Tue; Wed; Thu; Fri; Sat]).

End TextVocabulary.

Module SampleEnv.

Definition emails : list string := ["a@x.org"; "b@y.org"].

Definition threshold_low : number := Number.of_ratio 8 10.
Definition threshold_high : number := Number.of_ratio 12 10.

(** Timestamps that are no dates. *)
Definition undated : list string := ["soon"; "later"].

(** The hits of the sample series. *)
Definition first_hit : hit := {| iso := "2024-05-01T06:00"; meters := Sample.cm 90 |}.
Definition other_hits : list hit :=
  [{| iso := "2024-05-01T12:00"; meters := Sample.cm 120 |};
   {| iso := "2024-05-02T06:00"; meters := Sample.cm 150 |};
   {| iso := "2024-05-02T12:00"; meters := Sample.cm 110 |}].

End SampleEnv.

(** ** The order of heights *)

Section NumberOrder.

Ltac compare_cases :=
  repeat match goal with
    | |- context [(?a ?= ?b)%Z] => destruct (Z.compare_spec a b); subst
    | |- context [Pos.compare_cont Eq ?a ?b] =>
        change (Pos.compare_cont Eq a b) with (Pos.compare a b);
        destruct (Pos.compare_spec a b); subst
    end; simpl; try done; try lia.

Lemma SFleb_trans x y z :
  SFleb x y = true -> SFleb y z = true -> SFleb x z = true.
Proof.
  unfold SFleb, SFcompare.
  destruct x as [[]|[]| |[] mx ex], y as [[]|[]| |[] my ey],
           z as [[]|[]| |[] mz ez]; simpl; try done; compare_cases.
Qed.

Lemma SFltb_leb x y : SFltb x y = true -> SFleb x y = true.
Proof. unfold SFltb, SFleb. by destruct (SFcompare x y) as [[]|]. Qed.

Lemma SFltb_false_leb x y :
  Number.is_nan x = false -> Number.is_nan y = false ->
  SFltb x y = false -> SFleb y x = true.
Proof.
  unfold SFltb, SFleb, SFcompare.
  destruct x as [[]|[]| |[] mx ex], y as [[]|[]| |[] my ey];
    simpl; try done; compare_cases.
Qed.

Lemma SFleb_refl x : Number.is_nan x = false -> SFleb x x = true.
Proof.
  unfold SFleb, SFcompare.
  destruct x as [[]|[]| |[] mx ex]; simpl; try done; compare_cases.
Qed.

Lemma SFleb_not_nan x y : SFleb x y = true -> Number.is_nan y = false.
Proof. by destruct x as [[]|[]| |[] mx ex], y. Qed.

End NumberOrder.
(** ** The detectors *)

Section DetectorFacts.
Context `{Platform}.

Lemma within_not_after s cutoff (h : height) :
  is_Some (date_value s) ->
  within cutoff {| iso := s; meters := h |} = negb (after s cutoff).
Proof.
  intros [t Ht]. unfold within, after. simpl. rewrite Ht.
  destruct (Z.leb_spec t cutoff), (Z.ltb_spec cutoff t); simpl; auto; lia.
Qed.

Lemma hours_cons_drop t ts hs i :
  hours (t :: ts) (drop i hs) =
    match hs !! i with
    | Some v => {| iso := t; meters := v |} :: hours ts (drop (S i) hs)
    | None => []
    end.
Proof.
  destruct (hs !! i) as [v|] eqn:E.
  - rewrite (drop_S _ _ _ E). reflexivity.
  - rewrite drop_ge; [reflexivity|]. by apply lookup_ge_None.
Qed.

Lemma hours_drop_none ts hs i :
  hs !! i = None -> hours ts (drop (S i) hs) = [].
Proof.
  intros E. rewrite drop_ge; [by destruct ts|].
  apply lookup_ge_None in E. lia.
Qed.

Lemma visit_array hs thr cutoff tm t i hits :
  IndexJs.visit {| time := tm; wave_height := Some hs |} thr cutoff t i hits =
    Ok (hits ++ filter (fun x => negb (after (iso x) cutoff) && exceeds thr x)
                  (match hs !! i with
                   | Some v => [{| iso := t; meters := v |}]
                   | None => []
                   end)).
Proof.
  unfold IndexJs.visit. simpl.
  destruct (hs !! i) as [v|]; simpl.
  - rewrite filter_cons, filter_nil. unfold exceeds. simpl.
    destruct (after t cutoff); simpl; [by rewrite app_nil_r|].
    destruct (Number.ge (ToNumber v) thr); simpl; [done|by rewrite app_nil_r].
  - rewrite filter_nil, app_nil_r. unfold Number.ge. simpl.
    by destruct (after t cutoff), thr.
Qed.

(** The full scan keeps the hours that are not after the cutoff and
    reach the threshold, in their order. *)
Lemma forEach_visit hs thr cutoff tm ts : forall i hits,
  forEach (IndexJs.visit {| time := tm; wave_height := Some hs |} thr cutoff) ts i hits =
    Ok (hits ++ filter (fun x => negb (after (iso x) cutoff) && exceeds thr x)
                  (hours ts (drop i hs))).
Proof.
  induction ts as [|t ts IH]; intros i hits.
  - simpl. by rewrite app_nil_r.
  - rewrite hours_cons_drop. cbn [forEach]. rewrite visit_array. simpl.
    rewrite IH, <- app_assoc. f_equal. f_equal.
    destruct (hs !! i) as [v|] eqn:E.
    + by rewrite <- filter_app.
    + by rewrite hours_drop_none.
Qed.


(** One step of the early stop against one step of the full scan. *)
Lemma visit_break h thr cutoff t i hits :
  after t cutoff = true ->
  WaveAlert.visit h thr cutoff t i hits = Ok (Break hits) /\
  IndexJs.visit h thr cutoff t i hits = Ok hits.
Proof. intros E. unfold WaveAlert.visit, IndexJs.visit. by rewrite E. Qed.

Lemma visit_next h thr cutoff t i hits :
  after t cutoff = false ->
  WaveAlert.visit h thr cutoff t i hits =
    (s ← IndexJs.visit h thr cutoff t i hits; Ok (Next s)).
Proof.
  intros E. unfold WaveAlert.visit, IndexJs.visit. rewrite E.
  destruct (read_index (wave_height h) i) as [v|e]; simpl; [|done].
  by destruct (Number.ge (ToNumber v) thr).
Qed.

(** Past the cutoff the full scan adds nothing. *)
Lemma forEach_all_after h thr cutoff ts : forall i hits,
  Forall (fun t => after t cutoff = true) ts ->
  forEach (IndexJs.visit h thr cutoff) ts i hits = Ok hits.
Proof.
  induction ts as [|t ts IH]; intros i hits Hall; [done|].
  apply Forall_cons in Hall as [Ht Hts]. cbn [forEach].
  destruct (visit_break h thr cutoff t i hits Ht) as [_ ->]. simpl.
  by apply IH.
Qed.

Lemma ascending_tail t ts : ascending (t :: ts) -> ascending ts.
Proof.
  intros (zs & Hz & Hs). destruct zs as [|z zs]; [done|].
  injection Hz as _ Hz. exists zs. split; [done|]. by inversion Hs.
Qed.

Lemma ascending_settled cutoff ts : ascending ts -> settled cutoff ts.
Proof.
  induction ts as [|t ts IH]; intros Hasc; [done|].
  split; [|by eapply IH, ascending_tail].
  destruct Hasc as (zs & Hz & Hs). destruct zs as [|z zs]; [done|].
  injection Hz as Ht Hz. intros Ha.
  apply Sorted_StronglySorted in Hs; [|intros ???; lia].
  apply StronglySorted_inv in Hs as [_ Hle].
  unfold after in Ha. rewrite Ht in Ha. apply Z.ltb_lt in Ha.
  clear Ht IH. revert zs Hz Hle. induction ts as [|t' ts IH]; intros zs Hz Hle; [done|].
  destruct zs as [|z' zs]; [done|]. injection Hz as Ht' Hz.
  apply Forall_cons in Hle as [Hzz' Hle]. constructor; [|by eapply IH].
  unfold after. rewrite Ht'. apply Z.ltb_lt. lia.
Qed.

Lemma ascending_well_dated ts : ascending ts -> well_dated ts.
Proof.
  intros (zs & Hz & _). revert zs Hz.
  induction ts as [|t ts IH]; intros zs Hz; [constructor|].
  destruct zs as [|z zs]; [done|]. injection Hz as Ht Hz.
  constructor; [by exists z|by eapply IH].
Qed.

(** On a settled series the two loops agree, whatever the payload. *)
Lemma loops_agree h thr cutoff ts : forall i hits,
  settled cutoff ts ->
  forEach (IndexJs.visit h thr cutoff) ts i hits =
    for_index (WaveAlert.visit h thr cutoff) ts i hits.
Proof.
  induction ts as [|t ts IH]; intros i hits Hs; [done|].
  destruct Hs as [Hfirst Hrest].
  cbn [forEach for_index].
  destruct (after t cutoff) eqn:Ea.
  - destruct (visit_break h thr cutoff t i hits Ea) as [-> ->]. simpl.
    by apply forEach_all_after, Hfirst.
  - rewrite (visit_next _ _ _ _ _ _ Ea).
    destruct (IndexJs.visit h thr cutoff t i hits) as [s|e]; simpl; [|done].
    by apply IH.
Qed.

(** The early stop scans the hours before the first one after the
    cutoff. *)
Lemma for_index_until h thr cutoff ts : forall i hits,
  for_index (WaveAlert.visit h thr cutoff) ts i hits =
    forEach (IndexJs.visit h thr cutoff) (until_after cutoff ts) i hits.
Proof.
  induction ts as [|t ts IH]; intros i hits; [done|].
  cbn [for_index until_after].
  destruct (after t cutoff) eqn:Ea.
  - by destruct (visit_break h thr cutoff t i hits Ea) as [-> _].
  - cbn [forEach]. rewrite (visit_next _ _ _ _ _ _ Ea).
    destruct (IndexJs.visit h thr cutoff t i hits) as [s|e]; simpl; [|done].
    apply IH.
Qed.

Lemma until_after_prefix cutoff ts :
  exists rest, ts = until_after cutoff ts ++ rest.
Proof.
  induction ts as [|t ts [rest IH]]; [by exists []|]. simpl.
  destruct (after t cutoff); [by eexists|].
  exists rest. simpl. by rewrite <- IH.
Qed.

Lemma hours_prefix_sublist ts rest hs :
  hours ts hs `sublist_of` hours (ts ++ rest) hs.
Proof.
  revert hs. induction ts as [|t ts IH]; intros hs; [apply sublist_nil_l|].
  destruct hs as [|h hs]; [apply sublist_nil_l|].
  simpl. by apply sublist_skip.
Qed.

Lemma filter_hours_bounds thr cutoff ts hs :
  Forall (fun s => is_Some (date_value s)) ts ->
  filter (fun x => negb (after (iso x) cutoff) && exceeds thr x) (hours ts hs) =
  filter (fun x => exceeds thr x && within cutoff x) (hours ts hs).
Proof.
  revert hs. induction ts as [|t ts IH]; intros hs Hd; [done|].
  destruct hs as [|h hs]; [done|]. apply Forall_cons in Hd as [Ht Hd].
  simpl. rewrite !filter_cons. simpl. rewrite (within_not_after _ _ _ Ht), IH by done.
  destruct (after t cutoff), (exceeds thr _); simpl; done.
Qed.

Lemma filter_sublist {A} (P : A -> Prop) `{!forall x, Decision (P x)} (l1 l2 : list A) :
  l1 `sublist_of` l2 -> filter P l1 `sublist_of` filter P l2.
Proof.
  induction 1 as [|x l1 l2 _ IH|x l1 l2 _ IH]; [done| |]; rewrite ?filter_cons;
    destruct (decide (P x)); auto using sublist_skip, sublist_cons.
Qed.

Lemma index_detector now ts hs thr days :
  IndexJs.nextExceedances now (series ts hs) thr days =
    Ok (filter (fun x => negb (after (iso x) (cutoff_of now days)) && exceeds thr x)
          (hours ts hs)).
Proof. unfold IndexJs.nextExceedances. simpl. by rewrite forEach_visit. Qed.

Lemma early_detector now ts hs thr days :
  WaveAlert.nextExceedances now (series ts hs) thr days =
    Ok (filter (fun x => negb (after (iso x) (cutoff_of now days)) && exceeds thr x)
          (hours (until_after (cutoff_of now days) ts) hs)).
Proof.
  unfold WaveAlert.nextExceedances. simpl.
  by rewrite for_index_until, forEach_visit.
Qed.

Lemma sublist_ascending (hits : list hit) ts hs :
  hits `sublist_of` hours ts hs -> ascending ts -> ascending (iso <$> hits).
Proof.
  intros Hsub (zs & Hz & Hs).
  apply Sorted_StronglySorted in Hs; [|intros ???; lia].
  revert hits hs zs Hsub Hz Hs.
  induction ts as [|t ts IH]; intros hits hs zs Hsub Hz Hs.
  - apply sublist_nil_r in Hsub as ->. exists []. by split; [|constructor].
  - destruct hs as [|h hs].
    { apply sublist_nil_r in Hsub as ->. exists []. by split; [|constructor]. }
    destruct zs as [|z zs]; [done|]. injection Hz as Ht Hz.
    apply StronglySorted_inv in Hs as [Hs Hle].
    simpl in Hsub. apply sublist_cons_r in Hsub as [Hsub|(hits' & -> & Hsub)].
    + by eapply IH.
    + destruct (IH _ _ _ Hsub Hz Hs) as (zs' & Hz' & Hs').
      exists (z :: zs'). split; [rewrite !fmap_cons; simpl; by rewrite Ht, Hz'|].
      apply StronglySorted_Sorted. constructor.
      * apply Sorted_StronglySorted in Hs'; [done|intros ???; lia].
      * assert (Hin : forall z', z' ∈ zs' -> z' ∈ zs).
        { intros z' Hz'in.
          assert (Some z' ∈ date_value <$> (iso <$> hits')) as Hin
            by (rewrite Hz'; by apply list_elem_of_fmap_2).
          apply list_elem_of_fmap in Hin as (s & Hs1 & Hs2).
          apply list_elem_of_fmap in Hs2 as (x & -> & Hx).
          assert (x ∈ hours ts hs) as Hx' by (by eapply elem_of_sublist).
          assert (iso x ∈ ts) as Hts.
          { clear -Hx'. unfold hours in Hx'.
            apply elem_of_zip_with in Hx' as (a & b & -> & Ha & _). done. }
          assert (Some z' ∈ Some <$> zs) as Hzz.
          { unfold fmap. rewrite <- Hz, Hs1. by apply (list_elem_of_fmap_2 date_value). }
          apply list_elem_of_fmap in Hzz as (z'' & [= ->] & ?). done. }
        apply Forall_forall. intros z' Hz'in.
        rewrite Forall_forall in Hle. by apply Hle, Hin.
Qed.

(** Both detectors against the list of the hours that reach the
    threshold at or before the cutoff. *)
Lemma detectors_against_wanted now ts hs thr days :
  well_dated ts ->
  let wanted :=
    filter (fun x => exceeds thr x && within (cutoff_of now days) x) (hours ts hs) in
  IndexJs.nextExceedances now (series ts hs) thr days = Ok wanted /\
  exists hits,
    WaveAlert.nextExceedances now (series ts hs) thr days = Ok hits /\
    hits `sublist_of` wanted /\
    (ascending ts -> hits = wanted).
Proof.
  intros Hd wanted. subst wanted.
  rewrite index_detector, early_detector, <- filter_hours_bounds by done.
  split; [done|]. eexists. split; [done|].
  destruct (until_after_prefix (cutoff_of now days) ts) as [rest Hrest].
  split.
  - apply filter_sublist. rewrite Hrest at 2. apply hours_prefix_sublist.
  - intros Hasc.
    pose proof (loops_agree {| time := Some ts; wave_height := Some hs |} thr
                  (cutoff_of now days) ts 0 [] (ascending_settled _ _ Hasc)) as Heq.
    rewrite for_index_until, !forEach_visit in Heq.
    injection Heq as Heq. symmetry. exact Heq.
Qed.

(** Whatever the payload, a detector that returns, returns hits that
    reach the threshold. *)
Lemma visit_exceeds h thr cutoff t i hits hits' :
  Forall (fun x => exceeds thr x = true) hits ->
  IndexJs.visit h thr cutoff t i hits = Ok hits' ->
  Forall (fun x => exceeds thr x = true) hits'.
Proof.
  intros Hall. unfold IndexJs.visit.
  destruct (after t cutoff); [by intros [= <-]|].
  destruct (read_index (wave_height h) i) as [v|e]; simpl; [|done].
  destruct (Number.ge (ToNumber v) thr) eqn:Ev; intros [= <-]; [|done].
  apply Forall_app. split; [done|]. by repeat constructor.
Qed.

Lemma forEach_exceeds h thr cutoff ts : forall i hits hits',
  Forall (fun x => exceeds thr x = true) hits ->
  forEach (IndexJs.visit h thr cutoff) ts i hits = Ok hits' ->
  Forall (fun x => exceeds thr x = true) hits'.
Proof.
  induction ts as [|t ts IH]; intros i hits hits' Hall; cbn [forEach].
  - by intros [= <-].
  - destruct (IndexJs.visit h thr cutoff t i hits) as [s|e] eqn:Ev; simpl; [|done].
    apply IH. by eapply visit_exceeds.
Qed.

Lemma detected_exceed now hourly thr days hits :
  IndexJs.nextExceedances now hourly thr days = Ok hits \/
  WaveAlert.nextExceedances now hourly thr days = Ok hits ->
  Forall (fun x => exceeds thr x = true) hits.
Proof.
  unfold IndexJs.nextExceedances, WaveAlert.nextExceedances.
  destruct hourly as [h|]; simpl; [|by intros [|]].
  destruct (time h) as [ts|]; simpl; [|by intros [|]].
  rewrite for_index_until. intros [Hr|Hr]; by eapply forEach_exceeds in Hr.
Qed.

Lemma exceeds_comparable thr hits :
  Forall (fun x => exceeds thr x = true) hits -> comparable hits.
Proof.
  intros Hall. eapply Forall_impl; [exact Hall|].
  intros x Hx. by apply SFleb_not_nan in Hx.
Qed.

End DetectorFacts.

(** ** The detectors: the stated properties *)

Section DetectorClaims.
Context `{Platform}.

(** C1 (as amended).  On a series whose timestamps are all dates, the
    detector of [src/index.js] returns exactly the hours with
    [height >= threshold] and [timestamp <= now + daysAhead days], in the
    order of the input.  The detector of [src/unnamed/part_000] returns
    hours of that list only, in that order, and returns all of them when
    the series is ascending. *)
Theorem detectors_select_exceedances now ts hs thr days :
  well_dated ts ->
  let wanted :=
    filter (fun x => exceeds thr x && within (cutoff_of now days) x) (hours ts hs) in
  IndexJs.nextExceedances now (series ts hs) thr days = Ok wanted /\
  exists hits,
    WaveAlert.nextExceedances now (series ts hs) thr days = Ok hits /\
    hits `sublist_of` wanted /\
    (ascending ts -> hits = wanted).
Proof. apply detectors_against_wanted. Qed.

(** C7.  On an ascending series the full scan of [src/index.js] and the
    early stop of [src/unnamed/part_000] return the same result, whether
    or not the heights are there. *)
Theorem detectors_agree_on_ascending now ts wh thr days :
  ascending ts ->
  IndexJs.nextExceedances now (Some {| time := Some ts; wave_height := wh |}) thr days =
  WaveAlert.nextExceedances now (Some {| time := Some ts; wave_height := wh |}) thr days.
Proof.
  intros Hasc. unfold IndexJs.nextExceedances, WaveAlert.nextExceedances. simpl.
  by apply loops_agree, ascending_settled.
Qed.

(** C8.  Each detector returns a subsequence of the hours of the input:
    the hits keep the relative order of the hours they come from.  On an
    ascending series their timestamps are therefore in non-decreasing
    order. *)
Theorem hits_keep_input_order now ts hs thr days :
  (exists hits,
     IndexJs.nextExceedances now (series ts hs) thr days = Ok hits /\
     hits `sublist_of` hours ts hs /\
     (ascending ts -> ascending (iso <$> hits))) /\
  (exists hits,
     WaveAlert.nextExceedances now (series ts hs) thr days = Ok hits /\
     hits `sublist_of` hours ts hs /\
     (ascending ts -> ascending (iso <$> hits))).
Proof.
  rewrite index_detector, early_detector.
  assert (Hscan : forall P `{!forall x, Decision (P x)},
            filter P (hours ts hs) `sublist_of` hours ts hs)
    by (intros; apply sublist_filter).
  assert (Hstop : forall P `{!forall x, Decision (P x)},
            filter P (hours (until_after (cutoff_of now days) ts) hs)
              `sublist_of` hours ts hs).
  { intros P ?. etrans; [apply sublist_filter|].
    destruct (until_after_prefix (cutoff_of now days) ts) as [rest Hrest].
    rewrite Hrest at 2. apply hours_prefix_sublist. }
  split; eexists; (split; [done|]); (split; [auto|]);
    intros Hasc; eapply sublist_ascending; eauto.
Qed.

End DetectorClaims.

Section DetectorExamples.
#[local] Existing Instance Utc.platform.

(** The early stop misses an hour that follows a later one: with the hour
  of 2024-05-04 listed first, the hour of 2024-05-01T06:00, 0.9 m high and
  before the cutoff, is not returned. *)
Lemma early_stop_omits_hour :
let h := {| iso := "2024-05-01T06:00"; meters := Sample.cm 90 |} in
h ∈ hours Sample.shuffled_times Sample.shuffled_heights /\
exceeds (THRESHOLD_METERS Sample.cfg) h = true /\
within (cutoff_of Sample.now 2) h = true /\
WaveAlert.nextExceedances Sample.now
  (series Sample.shuffled_times Sample.shuffled_heights)
  (THRESHOLD_METERS Sample.cfg) 2 = Ok [].
Proof.
intros h. split; [|by vm_compute].
right. left.
Qed.

Lemma sample_well_dated : well_dated Sample.times.
Proof. unfold well_dated. repeat constructor; by eexists. Defined.

Lemma sample_ascending : ascending Sample.times.
Proof.
exists Sample.time_values. split; [by vm_compute|].
repeat constructor; by vm_compute.
Defined.

Lemma detectors_select_exceedances_witness :
well_dated Sample.times /\
let wanted :=
  filter (fun x => exceeds (THRESHOLD_METERS Sample.cfg) x
                   && within (cutoff_of Sample.now 2) x)
    (hours Sample.times Sample.heights) in
IndexJs.nextExceedances Sample.now
  (series Sample.times Sample.heights) (THRESHOLD_METERS Sample.cfg) 2 = Ok wanted /\
exists hits,
  WaveAlert.nextExceedances Sample.now
    (series Sample.times Sample.heights) (THRESHOLD_METERS Sample.cfg) 2 = Ok hits /\
  hits `sublist_of` wanted /\
  (ascending Sample.times -> hits = wanted).
Proof.
split; [exact sample_well_dated|].
exact (detectors_select_exceedances Sample.now Sample.times
         Sample.heights (THRESHOLD_METERS Sample.cfg) 2 sample_well_dated).
Defined.

Lemma detectors_agree_on_ascending_witness :
ascending Sample.times /\
IndexJs.nextExceedances Sample.now
  (Some {| time := Some Sample.times; wave_height := Some Sample.heights |})
  (THRESHOLD_METERS Sample.cfg) 2 =
WaveAlert.nextExceedances Sample.now
  (Some {| time := Some Sample.times; wave_height := Some Sample.heights |})
  (THRESHOLD_METERS Sample.cfg) 2.
Proof.
split; [exact sample_ascending|].
exact (detectors_agree_on_ascending Sample.now Sample.times
         (Some Sample.heights) (THRESHOLD_METERS Sample.cfg) 2 sample_ascending).
Defined.

Lemma hits_keep_input_order_witness :
  ascending Sample.times /\
  (exists hits,
     IndexJs.nextExceedances Sample.now (series Sample.times Sample.heights)
       (THRESHOLD_METERS Sample.cfg) 2 = Ok hits /\
     hits `sublist_of` hours Sample.times Sample.heights /\
     (ascending Sample.times -> ascending (iso <$> hits))) /\
  (exists hits,
     WaveAlert.nextExceedances Sample.now (series Sample.times Sample.heights)
       (THRESHOLD_METERS Sample.cfg) 2 = Ok hits /\
     hits `sublist_of` hours Sample.times Sample.heights /\
     (ascending Sample.times -> ascending (iso <$> hits))).
Proof.
  split; [exact sample_ascending|].
  exact (hits_keep_input_order Sample.now Sample.times Sample.heights
           (THRESHOLD_METERS Sample.cfg) 2).
Defined.

End DetectorExamples.

(** ** Buckets and peaks *)

Section GroupFacts.
Context `{Platform}.

Lemma lookup_push_day day h g d :
  lookup_day d (push_day day h g) =
    if decide (d = day) then Some (default [] (lookup_day day g) ++ [h])
    else lookup_day d g.
Proof.
  induction g as [|[d0 arr] g IH]; simpl.
  - destruct (String.eqb_spec day d); case_decide; congruence.
  - destruct (String.eqb_spec d0 day) as [->|Hne]; simpl.
    + destruct (String.eqb_spec day d); case_decide; congruence.
    + rewrite IH. destruct (String.eqb_spec d0 d); case_decide; congruence.
Qed.

Lemma keys_push_day day h g :
  (push_day day h g).*1 = if decide (day ∈ g.*1) then g.*1 else g.*1 ++ [day].
Proof.
  induction g as [|[d0 arr] g IH].
  - rewrite decide_False; [done|]. apply not_elem_of_nil.
  - cbn [push_day]. destruct (String.eqb_spec d0 day) as [->|Hne];
      rewrite !fmap_cons; cbn [fst].
    + rewrite decide_True; [done|left].
    + rewrite IH. destruct (decide (day ∈ g.*1)) as [Hin|Hnin].
      * rewrite decide_True; [done|by right].
      * rewrite decide_False; [done|]. intros [?|?]%elem_of_cons; congruence.
Qed.

Lemma group_by_day_snoc hits h :
  group_by_day (hits ++ [h]) = push_day (weekday_label (iso h)) h (group_by_day hits).
Proof. unfold group_by_day. by rewrite fold_left_app. Qed.

Lemma NoDup_keys hits : NoDup (group_by_day hits).*1.
Proof.
  induction hits as [|h hits IH] using rev_ind; [constructor|].
  rewrite group_by_day_snoc, keys_push_day. case_decide as Hin; [done|].
  apply NoDup_app. split_and!; [done| |apply NoDup_singleton].
  intros d Hd ->%list_elem_of_singleton. done.
Qed.

(** A bucket holds all the hits of its weekday label, in their order, and
    a label has a bucket as soon as one hit carries it. *)
Lemma lookup_group_by_day hits day :
  lookup_day day (group_by_day hits) =
    match on_day day hits with
    | [] => None
    | arr => Some arr
    end.
Proof.
  induction hits as [|h hits IH] using rev_ind; [done|].
  rewrite group_by_day_snoc, lookup_push_day. unfold on_day in *.
  rewrite filter_app, filter_cons, filter_nil.
  destruct (decide (day = weekday_label (iso h))) as [->|Hne].
  - rewrite decide_True by done. rewrite IH.
    by destruct (filter _ hits).
  - rewrite decide_False by done. by rewrite app_nil_r.
Qed.

Lemma lookup_day_elem_of day g arr :
  lookup_day day g = Some arr -> (day, arr) ∈ g.
Proof.
  induction g as [|[d0 arr0] g IH]; simpl; [done|].
  destruct (String.eqb_spec d0 day) as [->|Hne].
  - intros [= ->]. left.
  - intros Hl. right. by apply IH.
Qed.

Lemma elem_of_lookup_day day g arr :
  NoDup g.*1 -> (day, arr) ∈ g -> lookup_day day g = Some arr.
Proof.
  induction g as [|[d0 arr0] g IH]; simpl; intros Hnd Hin.
  - by apply elem_of_nil in Hin.
  - apply NoDup_cons in Hnd as [Hnot Hnd].
    apply elem_of_cons in Hin as [[= <- <-]|Hin].
    + by rewrite String.eqb_refl.
    + destruct (String.eqb_spec d0 day) as [->|Hne]; [|by apply IH].
      destruct Hnot. by apply (list_elem_of_fmap_2 fst) in Hin.
Qed.

(** Every bucket of the object is non-empty. *)
Lemma buckets_inhabited hits day arr :
  (day, arr) ∈ group_by_day hits -> arr = on_day day hits /\ arr <> [].
Proof.
  intros Hin. apply elem_of_lookup_day in Hin; [|apply NoDup_keys].
  rewrite lookup_group_by_day in Hin.
  destruct (on_day day hits) eqn:E; [done|]. by injection Hin as <-.
Qed.

(** The reduction: its result is a hit of the bucket, no hit of the
    bucket is higher, and every hit that comes after it is strictly
    lower. *)
Lemma fold_higher rest : forall a,
  comparable (a :: rest) ->
  let m := fold_left higher rest a in
  Forall (fun h => le_meters h m) (a :: rest) /\
  exists pre post, a :: rest = pre ++ m :: post /\
                   Forall (fun h => lt_meters h m) post.
Proof.
  induction rest as [|b rest IH] using rev_ind; intros a Hc m.
  - subst m. simpl. split.
    + constructor; [|done]. apply Forall_cons in Hc as [Ha _].
      by apply SFleb_refl.
    + by exists [], [].
  - subst m. rewrite fold_left_app. simpl.
    change (a :: rest ++ [b]) with ((a :: rest) ++ [b]) in *.
    apply Forall_app in Hc as [Hc Hb]. apply Forall_cons in Hb as [Hb _].
    destruct (IH a Hc) as (Hle & pre & post & Hsplit & Hpost).
    set (m := fold_left higher rest a) in *.
    assert (Hm : Number.is_nan (ToNumber (meters m)) = false).
    { apply Forall_cons in Hle as [Ha _]. apply (SFleb_not_nan _ _ Ha). }
    unfold higher. destruct (Number.gt (ToNumber (meters m)) (ToNumber (meters b))) eqn:Egt.
    + split.
      * apply Forall_app. split; [done|]. constructor; [|done].
        by apply SFltb_leb.
      * exists pre, (post ++ [b]). split; [by rewrite Hsplit, <- app_assoc|].
        apply Forall_app. split; [done|]. by constructor.
    + assert (Hmb : le_meters m b) by (by apply SFltb_false_leb).
      split.
      * apply Forall_app. split.
        -- eapply Forall_impl; [exact Hle|]. intros h Hh. simpl in Hh.
           unfold le_meters, Number.ge in *. by eapply SFleb_trans.
        -- constructor; [|done]. by apply SFleb_refl.
      * by exists (a :: rest), [].
Qed.

Lemma fold_higher_elem_of rest : forall a, fold_left higher rest a ∈ a :: rest.
Proof.
  induction rest as [|b rest IH]; intros a; [left|].
  simpl. pose proof (IH (higher a b)) as Hx.
  apply elem_of_cons in Hx as [Hx|Hx].
  - rewrite Hx. unfold higher. destruct (Number.gt _ _); [left|right; left].
  - by do 2 right.
Qed.

End GroupFacts.

(** ** Buckets and peaks: the stated properties *)

Section GroupClaims.
Context `{Platform}.

(** C3.  Hits are bucketed by their weekday label alone.  Two hits of the
    list whose timestamps render to the same label, whatever the week,
    are in one bucket: the only bucket with that label, which holds
    exactly the hits of the list with that label.  The peak line of the
    bucket is the line of the result of the reduction over that whole
    bucket, and, when no height is NaN, neither hit is higher than that
    peak. *)
Theorem same_label_same_bucket hits h1 h2 :
  h1 ∈ hits -> h2 ∈ hits ->
  weekday_label (iso h1) = weekday_label (iso h2) ->
  let day := weekday_label (iso h1) in
  let arr := on_day day hits in
  (day, arr) ∈ group_by_day hits /\
  (forall arr', (day, arr') ∈ group_by_day hits -> arr' = arr) /\
  h1 ∈ arr /\ h2 ∈ arr /\
  exists max,
    reduce higher arr = Ok max /\ max ∈ arr /\
    peak_line (day, arr) = Ok (peak_text day max) /\
    (comparable hits -> le_meters h1 max /\ le_meters h2 max).
Proof.
  intros Hin1 Hin2 Hday day arr.
  assert (H1 : h1 ∈ arr) by (by apply list_elem_of_filter).
  assert (H2 : h2 ∈ arr) by (by apply list_elem_of_filter).
  split_and!; try done.
  - apply lookup_day_elem_of. rewrite lookup_group_by_day.
    fold arr. destruct arr; [by apply elem_of_nil in H1|done].
  - intros arr' Hin'. by apply buckets_inhabited in Hin' as [-> _].
  - destruct arr as [|a rest] eqn:Earr; [by apply elem_of_nil in H1|].
    exists (fold_left higher rest a). split_and!; [done| | |].
    + apply fold_higher_elem_of.
    + done.
    + intros Hc.
      assert (Hca : comparable (a :: rest)).
      { rewrite <- Earr. subst arr. unfold on_day, comparable.
        apply Forall_forall. intros x [_ Hx]%list_elem_of_filter.
        unfold comparable in Hc. rewrite Forall_forall in Hc. by apply Hc. }
      destruct (fold_higher rest a Hca) as [Hle _].
      rewrite Forall_forall in Hle. split; by apply Hle.
Qed.

(** C6 (as amended).  In a non-empty bucket without NaN heights the
    reduction returns a hit of the bucket than which none is higher, and
    every hit after it is strictly lower: among hits of equal, maximal
    height it is the last one. *)
Theorem peak_is_last_of_highest arr :
  arr <> [] -> comparable arr ->
  exists max pre post,
    reduce higher arr = Ok max /\
    arr = pre ++ max :: post /\
    Forall (fun h => le_meters h max) pre /\
    Forall (fun h => lt_meters h max) post.
Proof.
  intros Hne Hc. destruct arr as [|a rest]; [done|].
  destruct (fold_higher rest a Hc) as (Hle & pre & post & Hsplit & Hpost).
  exists (fold_left higher rest a), pre, post. split_and!; try done.
  rewrite Hsplit in Hle. by apply Forall_app in Hle as [? _].
Qed.

End GroupClaims.

(** On a tie the reduction returns the later hit, not the earlier one. *)
Lemma peak_tie_returns_later :
  meters Sample.tie_early = meters Sample.tie_late /\
  reduce higher [Sample.tie_early; Sample.tie_late] = Ok Sample.tie_late /\
  Sample.tie_late <> Sample.tie_early.
Proof. split_and!; [done|done|discriminate]. Qed.

Section GroupExamples.
#[local] Existing Instance Utc.platform.

Lemma sample_bucket_comparable : comparable [Sample.tie_early; Sample.tie_late].
Proof. by repeat constructor. Defined.

Lemma peak_is_last_of_highest_witness :
  [Sample.tie_early; Sample.tie_late] <> [] /\
  comparable [Sample.tie_early; Sample.tie_late] /\
  exists max pre post,
    reduce higher [Sample.tie_early; Sample.tie_late] = Ok max /\
    [Sample.tie_early; Sample.tie_late] = pre ++ max :: post /\
    Forall (fun h => le_meters h max) pre /\
    Forall (fun h => lt_meters h max) post.
Proof.
  assert (Hne : [Sample.tie_early; Sample.tie_late] <> []) by discriminate.
  split; [exact Hne|]. split; [exact sample_bucket_comparable|].
  exact (peak_is_last_of_highest _ Hne sample_bucket_comparable).
Defined.

Lemma same_label_same_bucket_witness :
  Sample.wed_1 ∈ Sample.two_weeks /\
  Sample.wed_8 ∈ Sample.two_weeks /\
  weekday_label (iso Sample.wed_1) = weekday_label (iso Sample.wed_8) /\
  let day := weekday_label (iso Sample.wed_1) in
  let arr := on_day day Sample.two_weeks in
  (day, arr) ∈ group_by_day Sample.two_weeks /\
  (forall arr', (day, arr') ∈ group_by_day Sample.two_weeks -> arr' = arr) /\
  Sample.wed_1 ∈ arr /\ Sample.wed_8 ∈ arr /\
  exists max,
    reduce higher arr = Ok max /\ max ∈ arr /\
    peak_line (day, arr) = Ok (peak_text day max) /\
    (comparable Sample.two_weeks -> le_meters Sample.wed_1 max /\ le_meters Sample.wed_8 max).
Proof.
  assert (H1 : Sample.wed_1 ∈ Sample.two_weeks) by left.
  assert (H2 : Sample.wed_8 ∈ Sample.two_weeks) by (right; right; left).
  assert (Hd : weekday_label (iso Sample.wed_1) = weekday_label (iso Sample.wed_8))
    by reflexivity.
  split; [exact H1|]. split; [exact H2|]. split; [exact Hd|].
  exact (same_label_same_bucket Sample.two_weeks Sample.wed_1 Sample.wed_8 H1 H2 Hd).
Defined.

End GroupExamples.

(** ** Reports and runs *)

Section ReporterFacts.
Context `{Platform}.

Lemma mapM_total {A B} (f : A -> result B) (g : A -> B) (l : list A) :
  (forall x, f x = Ok (g x)) -> mapM f l = Ok (g <$> l).
Proof.
  intros Hf. induction l as [|x l IH]; [done|].
  cbn [mapM]. rewrite Hf. simpl. by rewrite IH.
Qed.

(** The [try] of [checkLocation] turns every outcome of its block into a
    text. *)
Lemma checkLocation_block detect WAVE GE cfg loc o now :
  checkLocation_with detect WAVE GE cfg loc o now =
    Ok (block_of (try_block detect WAVE GE cfg loc o now) loc).
Proof. unfold checkLocation_with, try_catch, block_of. by destruct (try_block _ _ _ _ _ _ _). Qed.

Lemma try_block_no_hits detect WAVE GE cfg loc o now payload :
  fetchWaveForecast o = Ok payload ->
  detect now (hourly payload) (THRESHOLD_METERS cfg) (LOOKAHEAD_DAYS cfg) = Ok [] ->
  try_block detect WAVE GE cfg loc o now = Ok (no_waves_line GE cfg loc).
Proof. intros Hf Hd. unfold try_block. rewrite Hf. simpl. by rewrite Hd. Qed.

Lemma try_block_throws detect WAVE GE cfg loc o now err :
  fetchWaveForecast o = Throw err \/
  (exists payload, fetchWaveForecast o = Ok payload /\
     detect now (hourly payload) (THRESHOLD_METERS cfg) (LOOKAHEAD_DAYS cfg) = Throw err) ->
  try_block detect WAVE GE cfg loc o now = Throw err.
Proof.
  unfold try_block. intros [Hf|(payload & Hf & Hd)]; rewrite Hf; simpl; [done|].
  by rewrite Hd.
Qed.

Lemma blocks_app cfg run1 run2 : blocks cfg (run1 ++ run2) = blocks cfg run1 ++ blocks cfg run2.
Proof. unfold blocks. apply fmap_app. Qed.

Lemma blocks_cons cfg loc obs run :
  blocks cfg ((loc, obs) :: run) =
    block_of (try_block IndexJs.nextExceedances IndexJs.WAVE IndexJs.GE
                cfg loc (outcome obs) (clock obs)) loc :: blocks cfg run.
Proof. reflexivity. Qed.

Lemma runOnce_mails_blocks cfg send run :
  IndexJs.runOnce cfg send run =
    [Checking (length run); Mail (String.concat blank_line (blocks cfg run));
     match send (String.concat blank_line (blocks cfg run)) with
     | Ok _ => MailSent
     | Throw err => MailError (message err)
     end].
Proof.
  unfold IndexJs.runOnce.
  rewrite (mapM_total _ (fun '(loc, obs) =>
    block_of (try_block IndexJs.nextExceedances IndexJs.WAVE IndexJs.GE
                cfg loc (outcome obs) (clock obs)) loc)).
  - fold (blocks cfg run). by destruct (send _).
  - intros [loc obs]. apply checkLocation_block.
Qed.

(** The lines of a report: one for each bucket, in the order of the
    buckets, each the line of the peak of its bucket. *)
Lemma peak_lines hits :
  exists lines,
    mapM peak_line (group_by_day hits) = Ok lines /\
    Forall2 (fun entry line =>
               exists max, reduce higher entry.2 = Ok max /\
                           line = peak_text entry.1 max)
      (group_by_day hits) lines.
Proof.
  assert (Hne : Forall (fun entry : string * list hit => entry.2 <> [])
                  (group_by_day hits)).
  { apply Forall_forall. intros [day arr] Hin. by apply buckets_inhabited in Hin as [_ ?]. }
  induction Hne as [|[day arr] g Harr _ (lines & Hm & Hl)].
  - exists []. by split; [|constructor].
  - destruct arr as [|a rest]; [done|].
    exists (peak_text day (fold_left higher rest a) :: lines). split.
    + cbn [mapM]. simpl. cbn [mapM] in Hm. by rewrite Hm.
    + constructor; [|done]. by eexists.
Qed.

(** A location with hits: the header, the threshold and the peak
    lines. *)
Lemma try_block_hits detect WAVE GE cfg loc o now payload h hits :
  fetchWaveForecast o = Ok payload ->
  detect now (hourly payload) (THRESHOLD_METERS cfg) (LOOKAHEAD_DAYS cfg) = Ok (h :: hits) ->
  exists lines,
    try_block detect WAVE GE cfg loc o now =
      Ok (String.concat newline (header_line WAVE loc :: threshold_line cfg :: lines)) /\
    Forall2 (fun entry line =>
               exists max, reduce higher entry.2 = Ok max /\
                           line = peak_text entry.1 max)
      (group_by_day (h :: hits)) lines.
Proof.
  intros Hf Hd. destruct (peak_lines (h :: hits)) as (lines & Hm & Hl).
  exists lines. split; [|done].
  unfold try_block. rewrite Hf. simpl. rewrite Hd.
  cbn -[group_by_day mapM String.concat]. by rewrite Hm.
Qed.

(** In the reports the buckets are never empty and hold no NaN: the
    reduction over them is the one [peak_is_last_of_highest] describes. *)
Lemma detected_buckets now hourly thr days hits day arr :
  IndexJs.nextExceedances now hourly thr days = Ok hits \/
  WaveAlert.nextExceedances now hourly thr days = Ok hits ->
  (day, arr) ∈ group_by_day hits ->
  arr <> [] /\ comparable arr.
Proof.
  intros Hd Hin. apply buckets_inhabited in Hin as [-> Hne]. split; [done|].
  apply detected_exceed, exceeds_comparable in Hd.
  unfold comparable, on_day in *. rewrite Forall_forall in Hd.
  apply Forall_forall. intros x [_ Hx]%list_elem_of_filter. by apply Hd.
Qed.

End ReporterFacts.

(** ** Reports and runs: the stated properties *)

Section ReporterClaims.
Context `{Platform}.

(** C2.  When the request of a location, or the processing of its
    payload, throws, [checkLocation] returns the line
    [[<name>] Error: <message>] for that location.  The run still calls
    the transport once, with one block for each configured location, in
    the order of the list: the blocks of the other locations are the ones
    their own observations give, and the block of the failing location is
    its error line. *)
Theorem failing_location_is_isolated cfg send before loc obs rest err :
  fetchWaveForecast (outcome obs) = Throw err \/
  (exists payload, fetchWaveForecast (outcome obs) = Ok payload /\
     IndexJs.nextExceedances (clock obs) (hourly payload)
       (THRESHOLD_METERS cfg) (LOOKAHEAD_DAYS cfg) = Throw err) ->
  let texts := blocks cfg before ++ error_line loc err :: blocks cfg rest in
  let text := String.concat blank_line texts in
  IndexJs.checkLocation cfg loc (outcome obs) (clock obs) =
    Ok ("[" +:+ name loc +:+ "] Error: " +:+ message err) /\
  length texts = length (before ++ (loc, obs) :: rest) /\
  IndexJs.runOnce cfg send (before ++ (loc, obs) :: rest) =
    [Checking (length (before ++ (loc, obs) :: rest)); Mail text;
     match send text with
     | Ok _ => MailSent
     | Throw e => MailError (message e)
     end].
Proof.
  intros Hthrow texts text.
  apply (try_block_throws _ IndexJs.WAVE IndexJs.GE cfg loc) in Hthrow.
  split_and!.
  - unfold IndexJs.checkLocation. by rewrite checkLocation_block, Hthrow.
  - subst texts. unfold blocks. rewrite !length_app. simpl.
    by rewrite !length_fmap.
  - rewrite runOnce_mails_blocks. subst text texts.
    by rewrite blocks_app, blocks_cons, Hthrow.
Qed.

(** C4 (as amended).  [fetchWaveForecast] fails in three cases: the
    request itself rejects; the endpoint answers with a status that is
    not a success, with the error [API error <status>]; the body that
    comes with a success status is not JSON.  A JSON body that arrives
    with a success status is returned as it is, whatever its shape.  What
    surfaces later: the detectors throw a [TypeError] on a payload without
    [hourly] or without [hourly.time], which [checkLocation] catches and
    turns into its error line; heights and timestamps of different
    lengths throw nothing. *)
Theorem fetch_checks_status_only cfg loc msg st body payload now ts hs thr days :
  fetchWaveForecast (NoResponse msg) = Throw (FetchRejected msg) /\
  message (FetchRejected msg) = msg /\
  fetchWaveForecast (Response false st body) = Throw (ApiError st) /\
  message (ApiError st) = "API error " +:+ number_to_string (Number.of_Z st) /\
  fetchWaveForecast (Response true st (NotJson msg)) = Throw (BodyRejected msg) /\
  message (BodyRejected msg) = msg /\
  fetchWaveForecast (Response true st (Json payload)) = Ok payload /\
  IndexJs.nextExceedances now None thr days = Throw (ReadOfUndefined "time") /\
  WaveAlert.nextExceedances now None thr days = Throw (ReadOfUndefined "time") /\
  IndexJs.nextExceedances now (Some {| time := None; wave_height := Some hs |}) thr days
    = Throw (ReadOfUndefined "forEach") /\
  WaveAlert.nextExceedances now (Some {| time := None; wave_height := Some hs |}) thr days
    = Throw (ReadOfUndefined "length") /\
  IndexJs.checkLocation cfg loc (Response true st (Json {| hourly := None |})) now =
    Ok (error_line loc (ReadOfUndefined "time")) /\
  WaveAlert.checkLocation cfg loc (Response true st (Json {| hourly := None |})) now =
    Ok (error_line loc (ReadOfUndefined "time")) /\
  IndexJs.checkLocation cfg loc
    (Response true st (Json {| hourly := Some {| time := None; wave_height := Some hs |} |}))
    now = Ok (error_line loc (ReadOfUndefined "forEach")) /\
  WaveAlert.checkLocation cfg loc
    (Response true st (Json {| hourly := Some {| time := None; wave_height := Some hs |} |}))
    now = Ok (error_line loc (ReadOfUndefined "length")) /\
  (exists hits, IndexJs.nextExceedances now (series ts hs) thr days = Ok hits) /\
  (exists hits, WaveAlert.nextExceedances now (series ts hs) thr days = Ok hits).
Proof.
  unfold IndexJs.checkLocation, WaveAlert.checkLocation.
  split_and!; try done; try (rewrite checkLocation_block; done).
  - rewrite index_detector. by eexists.
  - rewrite early_detector. by eexists.
Qed.

(** C9 (as amended).  When the series of a location has dates for
    timestamps and no hour with [height >= threshold] and
    [timestamp <= cutoff], [checkLocation] returns the one line
    [[<name>] No waves <sign> <threshold>m in next <days> days], where the
    sign is the text each file has between the words: U+2265 in
    [src/unnamed/part_000], and the seven bytes of its double encoding in
    [src/index.js]. *)
Theorem calm_location_line cfg loc st ts hs now :
  well_dated ts ->
  Forall (fun h => exceeds (THRESHOLD_METERS cfg) h
                   && within (cutoff_of now (LOOKAHEAD_DAYS cfg)) h = false)
    (hours ts hs) ->
  let line sign :=
    "[" +:+ name loc +:+ "] No waves " +:+ sign +:+ " "
      +:+ number_to_string (THRESHOLD_METERS cfg) +:+ "m in next "
      +:+ number_to_string (Number.of_Z (LOOKAHEAD_DAYS cfg)) +:+ " days" in
  IndexJs.checkLocation cfg loc (Response true st (Json {| hourly := series ts hs |})) now
    = Ok (line IndexJs.GE) /\
  WaveAlert.checkLocation cfg loc (Response true st (Json {| hourly := series ts hs |})) now
    = Ok (line WaveAlert.GE).
Proof.
  intros Hd Hcalm line.
  destruct (detectors_against_wanted now ts hs (THRESHOLD_METERS cfg)
              (LOOKAHEAD_DAYS cfg) Hd) as (Hidx & hits & Hwa & Hsub & _).
  assert (Hnone : filter (fun x => exceeds (THRESHOLD_METERS cfg) x
                     && within (cutoff_of now (LOOKAHEAD_DAYS cfg)) x) (hours ts hs) = []).
  { clear -Hcalm. induction Hcalm as [|h l Hh _ IH]; [done|].
    rewrite filter_cons_False; [done|]. rewrite Hh. auto. }
  rewrite Hnone in Hidx, Hsub. apply sublist_nil_r in Hsub as ->.
  unfold IndexJs.checkLocation, WaveAlert.checkLocation. rewrite !checkLocation_block.
  split.
  - by rewrite (try_block_no_hits _ _ _ _ _ _ _ {| hourly := series ts hs |}).
  - by rewrite (try_block_no_hits _ _ _ _ _ _ _ {| hourly := series ts hs |}).
Qed.

(** C10.  [checkLocation] never rejects: whatever the location, the
    outcome of the request and the clock, it returns a text, which is the
    result of its [try] block when the block completes and the line
    [[<name>] Error: <message>] when the block throws.  A payload without
    [hourly], or without [hourly.time], yields that line with the message
    of the [TypeError]. *)
Theorem checkLocation_never_throws cfg loc o now st wh :
  IndexJs.checkLocation cfg loc o now =
    Ok (block_of (try_block IndexJs.nextExceedances IndexJs.WAVE IndexJs.GE
                    cfg loc o now) loc) /\
  WaveAlert.checkLocation cfg loc o now =
    Ok (block_of (try_block WaveAlert.nextExceedances WaveAlert.WAVE WaveAlert.GE
                    cfg loc o now) loc) /\
  IndexJs.checkLocation cfg loc (Response true st (Json {| hourly := None |})) now =
    Ok ("[" +:+ name loc
          +:+ "] Error: Cannot read properties of undefined (reading 'time')") /\
  WaveAlert.checkLocation cfg loc (Response true st (Json {| hourly := None |})) now =
    Ok ("[" +:+ name loc
          +:+ "] Error: Cannot read properties of undefined (reading 'time')") /\
  IndexJs.checkLocation cfg loc
    (Response true st (Json {| hourly := Some {| time := None; wave_height := wh |} |})) now =
    Ok ("[" +:+ name loc
          +:+ "] Error: Cannot read properties of undefined (reading 'forEach')") /\
  WaveAlert.checkLocation cfg loc
    (Response true st (Json {| hourly := Some {| time := None; wave_height := wh |} |})) now =
    Ok ("[" +:+ name loc
          +:+ "] Error: Cannot read properties of undefined (reading 'length')").
Proof.
  unfold IndexJs.checkLocation, WaveAlert.checkLocation.
  split_and!; try apply checkLocation_block; done.
Qed.

End ReporterClaims.

(** C5 (as amended).  [metersToCm] maps 0.8 to 80 and 1.005 to 100: the
    Number nearest to 1.005 lies below it, its product with 100 is the
    Number 100.49999999999999, and [Math.round] takes that down. *)
Theorem metersToCm_samples :
  metersToCm (HNum (Number.of_ratio 8 10)) = Number.of_Z 80 /\
  metersToCm (HNum (Number.of_ratio 1005 1000)) = Number.of_Z 100 /\
  Utc.number_to_string (Number.mul (Number.of_ratio 1005 1000) (Number.of_Z 100))
    = "100.49999999999999".
Proof. split_and!; by vm_compute. Qed.

(** 1.005 metres do not render as 101 cm. *)
Lemma metersToCm_1005_is_not_101 :
  metersToCm (HNum (Number.of_ratio 1005 1000)) <> Number.of_Z 101.
Proof. by vm_compute. Qed.

(** A body without [hourly], and a body whose arrays differ in length,
    come back from [fetchWaveForecast] as results, not as failures. *)
Lemma fetch_returns_misshapen_payloads :
  fetchWaveForecast (Response true 200 (Json {| hourly := None |}))
    = Ok {| hourly := None |} /\
  fetchWaveForecast (delivers Sample.times [Sample.cm 90])
    = Ok {| hourly := series Sample.times [Sample.cm 90] |} /\
  length Sample.times <> length [Sample.cm 90].
Proof. split_and!; done. Qed.

Section ReporterExamples.
#[local] Existing Instance Utc.platform.

(** The line for a calm sea carries the sign U+2265, not the two
    characters [>=]. *)
Lemma calm_line_is_not_ascii :
  WaveAlert.checkLocation Sample.cfg Sample.tel_aviv
    (delivers Sample.times Sample.calm_heights) Sample.now
    = Ok "[Tel Aviv] No waves ≥ 0.8m in next 2 days" /\
  WaveAlert.checkLocation Sample.cfg Sample.tel_aviv
    (delivers Sample.times Sample.calm_heights) Sample.now
    <> Ok "[Tel Aviv] No waves >= 0.8m in next 2 days".
Proof. split; by vm_compute. Qed.

Lemma sample_calm :
  Forall (fun h => exceeds (THRESHOLD_METERS Sample.cfg) h
                   && within (cutoff_of Sample.now (LOOKAHEAD_DAYS Sample.cfg)) h = false)
    (hours Sample.times Sample.calm_heights).
Proof. repeat constructor. Defined.

Lemma calm_location_line_witness :
  well_dated Sample.times /\
  Forall (fun h => exceeds (THRESHOLD_METERS Sample.cfg) h
                   && within (cutoff_of Sample.now (LOOKAHEAD_DAYS Sample.cfg)) h = false)
    (hours Sample.times Sample.calm_heights) /\
  let line sign :=
    "[" +:+ name Sample.tel_aviv +:+ "] No waves " +:+ sign +:+ " "
      +:+ number_to_string (THRESHOLD_METERS Sample.cfg) +:+ "m in next "
      +:+ number_to_string (Number.of_Z (LOOKAHEAD_DAYS Sample.cfg)) +:+ " days" in
  IndexJs.checkLocation Sample.cfg Sample.tel_aviv
    (Response true 200 (Json {| hourly := series Sample.times Sample.calm_heights |}))
    Sample.now = Ok (line IndexJs.GE) /\
  WaveAlert.checkLocation Sample.cfg Sample.tel_aviv
    (Response true 200 (Json {| hourly := series Sample.times Sample.calm_heights |}))
    Sample.now = Ok (line WaveAlert.GE).
Proof.
  split; [exact sample_well_dated|]. split; [exact sample_calm|].
  exact (calm_location_line Sample.cfg Sample.tel_aviv 200 Sample.times
           Sample.calm_heights Sample.now sample_well_dated sample_calm).
Defined.

Lemma sample_failure :
  fetchWaveForecast (outcome Sample.failing) = Throw (ApiError 500) \/
  (exists payload, fetchWaveForecast (outcome Sample.failing) = Ok payload /\
     IndexJs.nextExceedances (clock Sample.failing) (hourly payload)
       (THRESHOLD_METERS Sample.cfg) (LOOKAHEAD_DAYS Sample.cfg) = Throw (ApiError 500)).
Proof. left. reflexivity. Defined.

Lemma failing_location_is_isolated_witness :
  let before :=
    [(Sample.tel_aviv,
      {| outcome := delivers Sample.times Sample.heights; clock := Sample.now |})] in
  let rest :=
    [(Sample.ashdod,
      {| outcome := delivers Sample.times Sample.calm_heights; clock := Sample.now |})] in
  let send := fun _ : string => Ok tt in
  (fetchWaveForecast (outcome Sample.failing) = Throw (ApiError 500) \/
   (exists payload, fetchWaveForecast (outcome Sample.failing) = Ok payload /\
      IndexJs.nextExceedances (clock Sample.failing) (hourly payload)
        (THRESHOLD_METERS Sample.cfg) (LOOKAHEAD_DAYS Sample.cfg) = Throw (ApiError 500))) /\
  let texts :=
    blocks Sample.cfg before ++ error_line Sample.haifa (ApiError 500)
      :: blocks Sample.cfg rest in
  let text := String.concat blank_line texts in
  IndexJs.checkLocation Sample.cfg Sample.haifa (outcome Sample.failing)
    (clock Sample.failing) =
    Ok ("[" +:+ name Sample.haifa +:+ "] Error: " +:+ message (ApiError 500)) /\
  length texts = length (before ++ (Sample.haifa, Sample.failing) :: rest) /\
  IndexJs.runOnce Sample.cfg send (before ++ (Sample.haifa, Sample.failing) :: rest) =
    [Checking (length (before ++ (Sample.haifa, Sample.failing) :: rest)); Mail text;
     match send text with
     | Ok _ => MailSent
     | Throw e => MailError (message e)
     end].
Proof.
  intros before rest send. split; [exact sample_failure|].
  exact (failing_location_is_isolated Sample.cfg send before Sample.haifa
           Sample.failing rest (ApiError 500) sample_failure).
Defined.

(** The report of a location with exceedances on two days. *)
Example sample_report :
  IndexJs.checkLocation Sample.cfg Sample.tel_aviv
    (delivers Sample.times Sample.heights) Sample.now =
    Ok (String.concat newline
          [IndexJs.WAVE +:+ " Tel Aviv (Lat/Lon: 32.081, 34.781)";
           "Threshold: 80 cm";
           "- Wed: peak ~120 cm at 12:00";
           "- Thu: peak ~150 cm at 06:00"]).
Proof. by vm_compute. Qed.

(** The run of the three locations: three blocks, the second one the
    error line. *)
Example sample_run :
  IndexJs.runOnce Sample.cfg (fun _ => Ok tt)
    [(Sample.tel_aviv,
      {| outcome := delivers Sample.times Sample.heights; clock := Sample.now |});
     (Sample.haifa, Sample.failing);
     (Sample.ashdod,
      {| outcome := delivers Sample.times Sample.calm_heights; clock := Sample.now |})] =
    [Checking 3;
     Mail (String.concat blank_line
             [String.concat newline
                [IndexJs.WAVE +:+ " Tel Aviv (Lat/Lon: 32.081, 34.781)";
                 "Threshold: 80 cm";
                 "- Wed: peak ~120 cm at 12:00";
                 "- Thu: peak ~150 cm at 06:00"];
              "[Haifa] Error: API error 500";
              "[Ashdod] No waves " +:+ IndexJs.GE +:+ " 0.8m in next 2 days"]);
     MailSent].
Proof. by vm_compute. Qed.

End ReporterExamples.

(** ** Text *)

Section TextFacts.

Lemma bytes_of_list l : bytes (string_of_list_ascii l) = l.
Proof. apply list_ascii_of_string_of_list_ascii. Qed.

Lemma of_list_bytes s : string_of_list_ascii (bytes s) = s.
Proof. apply string_of_list_ascii_of_string. Qed.

Lemma bytes_app a b : bytes (a +:+ b) = bytes a ++ bytes b.
Proof. induction a as [|c a IH]; simpl; [done|]. by rewrite IH. Qed.

Lemma bytes_inj a b : bytes a = bytes b -> a = b.
Proof. intros E. by rewrite <- (of_list_bytes a), <- (of_list_bytes b), E. Qed.

(** *** Stripping *)

Lemma strip_suffix tokens fuel : forall l, Text.strip tokens fuel l `suffix_of` l.
Proof.
  induction fuel as [|fuel IH]; intros l; simpl; [done|].
  destruct (list_find _ tokens) as [[i t]|]; [|done].
  etrans; [apply IH|]. apply suffix_drop.
Qed.

Lemma strip_done tokens fuel l :
  list_find (fun t => t `prefix_of` l) tokens = None -> Text.strip tokens fuel l = l.
Proof. intros E. destruct fuel; simpl; [done|]. by rewrite E. Qed.

Lemma strip_clear tokens fuel : forall l,
  Forall (fun t => t <> []) tokens -> (length l <= fuel)%nat ->
  Forall (fun t => ~ t `prefix_of` Text.strip tokens fuel l) tokens.
Proof.
  induction fuel as [|fuel IH]; intros l Htok Hlen; simpl.
  - destruct l; [|simpl in Hlen; lia].
    eapply Forall_impl; [exact Htok|]. intros t Ht Hp. by apply prefix_nil_inv in Hp.
  - destruct (list_find _ tokens) as [[i t]|] eqn:E.
    + apply list_find_Some in E as (Hi & Hp & _).
      apply IH; [done|]. rewrite length_drop.
      assert (t <> []) as Hne.
      { rewrite Forall_forall in Htok. apply Htok. by eapply list_elem_of_lookup_2. }
      destruct t; [done|]. simpl. lia.
    + by apply list_find_None in E.
Qed.

Lemma white_space_inhabited : Forall (fun t => t <> []) Text.white_space.
Proof. by repeat constructor. Qed.

Lemma reversed_inhabited : Forall (fun t => t <> []) (reverse <$> Text.white_space).
Proof. by repeat constructor. Qed.

Lemma bytes_trim s : bytes (Text.trim s) = trim_bytes (bytes s).
Proof. unfold Text.trim. apply bytes_of_list. Qed.

Lemma trimStart_clear l :
  Forall (fun t => ~ t `prefix_of` Text.trimStart_bytes l) Text.white_space.
Proof. apply strip_clear; [apply white_space_inhabited|done]. Qed.

Lemma trimEnd_prefix l : Text.trimEnd_bytes l `prefix_of` l.
Proof.
  unfold Text.trimEnd_bytes. apply prefix_suffix_reverse.
  rewrite reverse_involutive. apply strip_suffix.
Qed.

Lemma trimEnd_clear l :
  Forall (fun t => ~ t `suffix_of` Text.trimEnd_bytes l) Text.white_space.
Proof.
  pose proof (strip_clear (reverse <$> Text.white_space) (length l) (reverse l)
                reversed_inhabited) as Hc.
  rewrite length_reverse in Hc. specialize (Hc (le_n _)).
  rewrite Forall_fmap in Hc. eapply Forall_impl; [exact Hc|].
  intros t Ht Hs. apply Ht. simpl.
  apply suffix_prefix_reverse in Hs. unfold Text.trimEnd_bytes in Hs.
  by rewrite reverse_involutive in Hs.
Qed.

Lemma trim_clear_start l :
  Forall (fun t => ~ t `prefix_of` trim_bytes l) Text.white_space.
Proof.
  eapply Forall_impl; [apply (trimStart_clear l)|].
  intros t Ht Hp. apply Ht. etrans; [exact Hp|]. apply trimEnd_prefix.
Qed.

Lemma prefix_is_sublist (l1 l2 : list ascii) : l1 `prefix_of` l2 -> l1 `sublist_of` l2.
Proof. intros [k ->]. by apply sublist_inserts_r. Qed.

Lemma suffix_is_sublist (l1 l2 : list ascii) : l1 `suffix_of` l2 -> l1 `sublist_of` l2.
Proof. intros [k ->]. by apply sublist_inserts_l. Qed.

Lemma trim_sublist l : trim_bytes l `sublist_of` l.
Proof.
  unfold trim_bytes. etrans; [apply prefix_is_sublist, trimEnd_prefix|].
  apply suffix_is_sublist, strip_suffix.
Qed.

Lemma trim_fixed l :
  Forall (fun t => ~ t `prefix_of` l) Text.white_space ->
  Forall (fun t => ~ t `suffix_of` l) Text.white_space ->
  trim_bytes l = l.
Proof.
  intros Hs He. unfold trim_bytes, Text.trimStart_bytes, Text.trimEnd_bytes.
  rewrite (strip_done _ _ l) by (by apply list_find_None).
  rewrite strip_done; [apply reverse_involutive|].
  apply list_find_None. rewrite Forall_fmap.
  eapply Forall_impl; [exact He|]. intros t Ht Hp. apply Ht. simpl in Hp.
  by apply suffix_prefix_reverse.
Qed.

(** *** Splitting *)

Lemma split_inhabited sep s : Text.split sep s <> [].
Proof.
  destruct s as [|c s]; simpl; [done|].
  destruct (Ascii.eqb c sep); [done|]. by destruct (Text.split sep s).
Qed.

Lemma split_app sep a b :
  Text.split sep (a +:+ String sep b) = Text.split sep a ++ Text.split sep b.
Proof.
  induction a as [|c a IH]; simpl.
  - by rewrite Ascii.eqb_refl.
  - rewrite IH. destruct (Ascii.eqb c sep); [done|].
    pose proof (split_inhabited sep a). by destruct (Text.split sep a).
Qed.

Lemma split_whole sep s : sep ∉ bytes s -> Text.split sep s = [s].
Proof.
  induction s as [|c s IH]; simpl; [done|]. intros Hn.
  apply not_elem_of_cons in Hn as [Hc Hs].
  destruct (Ascii.eqb_spec c sep) as [->|_]; [done|]. by rewrite IH.
Qed.

(** No piece holds the separator, and a character that the text does not
    hold is in no piece. *)
Lemma split_pieces sep c s :
  (c = sep \/ c ∉ bytes s) -> Forall (fun w => c ∉ bytes w) (Text.split sep s).
Proof.
  induction s as [|x s IH]; simpl; intros Hc.
  - repeat constructor. apply not_elem_of_nil.
  - assert (Hs : c = sep \/ c ∉ bytes s).
    { destruct Hc as [?|Hc]; [by left|right]. by apply not_elem_of_cons in Hc as [_ ?]. }
    specialize (IH Hs). destruct (Ascii.eqb_spec x sep) as [->|Hne].
    + constructor; [apply not_elem_of_nil|done].
    + pose proof (split_inhabited sep s).
      destruct (Text.split sep s) as [|w ws]; [done|].
      apply Forall_cons in IH as [Hw Hws]. constructor; [|done].
      simpl. apply not_elem_of_cons. split; [|done].
      destruct Hc as [->|Hc]; [done|]. by apply not_elem_of_cons in Hc as [? _].
Qed.

Lemma split_join sep l :
  l <> [] -> Forall (fun w => sep ∉ bytes w) l ->
  Text.split sep (Text.join (String sep EmptyString) l) = l.
Proof.
  induction l as [|w l IH]; [done|]. intros _ Hl.
  apply Forall_cons in Hl as [Hw Hl]. destruct l as [|w' l].
  - simpl. by apply split_whole.
  - change (Text.join (String sep EmptyString) (w :: w' :: l))
      with (w +:+ String sep (Text.join (String sep EmptyString) (w' :: l))).
    rewrite split_app, IH by done. by rewrite split_whole.
Qed.

End TextFacts.

(** ** The constants read from the environment *)

Section EnvFacts.

Lemma string_or_empty s : Env.string_or (Some s) EmptyString = s.
Proof. by destruct s. Qed.

Lemma trim_clear_end l :
  Forall (fun t => ~ t `suffix_of` trim_bytes l) Text.white_space.
Proof. apply trimEnd_clear. Qed.

Lemma trim_clean w :
  (","%char ∉ bytes w) -> Text.trim w <> EmptyString -> clean (Text.trim w).
Proof.
  intros Hcomma Hne. split_and!; [done| | |].
  - unfold starts_with_space. rewrite bytes_trim, Exists_exists.
    intros (t & Ht & Hp). pose proof (trim_clear_start (bytes w)) as Hc.
    rewrite Forall_forall in Hc. by apply (Hc t).
  - unfold ends_with_space. rewrite bytes_trim, Exists_exists.
    intros (t & Ht & Hp). pose proof (trim_clear_end (bytes w)) as Hc.
    rewrite Forall_forall in Hc. by apply (Hc t).
  - rewrite bytes_trim. intros Hin. apply Hcomma.
    eapply elem_of_sublist; [exact Hin|apply trim_sublist].
Qed.

Lemma trim_of_clean w : clean w -> Text.trim w = w.
Proof.
  intros (_ & Hs & He & _). apply bytes_inj. rewrite bytes_trim.
  apply trim_fixed; apply Forall_forall; intros t Ht Hp.
  - apply Hs. apply Exists_exists. eauto.
  - apply He. apply Exists_exists. eauto.
Qed.

Lemma parseFloat_undefined : Text.parseFloat "undefined" = S754_nan.
Proof. by vm_compute. Qed.

Lemma no_comma_entry n la lo :
  field n -> field la -> field lo ->
  ","%char ∉ bytes (n +:+ String "|" (la +:+ String "|" lo)).
Proof.
  intros [Hn _] [Hla _] [Hlo _]. rewrite bytes_app. simpl. rewrite bytes_app. simpl.
  rewrite !elem_of_app, !elem_of_cons, !elem_of_app, !elem_of_cons.
  intros [?|[?|[?|[?|?]]]]; done.
Qed.

Lemma split_entry n la lo :
  field n -> field la -> field lo ->
  Text.split "|" (n +:+ String "|" (la +:+ String "|" lo)) = [n; la; lo].
Proof.
  intros [_ Hn] [_ Hla] [_ Hlo].
  by rewrite !split_app, !split_whole.
Qed.

End EnvFacts.

Section EnvProperties.

(** X1.  Whatever the variable holds, every recipient is a non-empty text
    without white space at either end and without a comma. *)
Theorem recipients_are_clean v : Forall clean (Env.RECIPIENTS v).
Proof.
  unfold Env.RECIPIENTS. apply Forall_forall. intros x Hx.
  apply list_elem_of_filter in Hx as [Hne Hx].
  apply list_elem_of_fmap in Hx as (w & -> & Hw).
  apply trim_clean; [|done].
  pose proof (split_pieces ","%char ","%char (Env.string_or v EmptyString) (or_introl eq_refl))
    as Hp.
  rewrite Forall_forall in Hp. by apply Hp.
Qed.

(** X2.  A list of recipients that are non-empty, without white space at
    either end and without a comma, written with commas between them, is
    read back as it is. *)
Theorem recipients_round_trip l :
  Forall clean l -> Env.RECIPIENTS (Some (Text.join "," l)) = l.
Proof.
  intros Hl. unfold Env.RECIPIENTS. rewrite string_or_empty.
  destruct l as [|w l]; [done|].
  rewrite split_join; [|done|].
  - assert (Text.trim <$> (w :: l) = w :: l) as ->.
    { clear -Hl. induction Hl as [|x k Hx _ IH]; [done|].
      rewrite fmap_cons, IH. by rewrite trim_of_clean. }
    clear -Hl. induction Hl as [|x k Hx _ IH]; [done|].
    rewrite filter_cons_True; [by rewrite IH|]. by destruct Hx.
  - eapply Forall_impl; [exact Hl|]. by intros x (_ & _ & _ & ?).
Qed.

(** X3.  The entries are read one by one: the recipients of two texts
    written one after the other with a comma between them are those of
    the first followed by those of the second; an unset variable and an
    empty one give no recipient. *)
Theorem recipients_of_two_texts a b :
  Env.RECIPIENTS (Some (a +:+ "," +:+ b)) =
    Env.RECIPIENTS (Some a) ++ Env.RECIPIENTS (Some b) /\
  Env.RECIPIENTS None = [] /\ Env.RECIPIENTS (Some EmptyString) = [].
Proof.
  split; [|done]. unfold Env.RECIPIENTS. rewrite !string_or_empty.
  change ("," +:+ b) with (String ","%char b).
  by rewrite split_app, fmap_app, filter_app.
Qed.

(** X4.  Whatever the variable holds, every location has a non-empty
    name, free of both separators, and coordinates that are not NaN. *)
Theorem locations_are_located v :
  Forall (fun loc => Env.located loc /\ field (name loc)) (Env.LOCATIONS v).
Proof.
  unfold Env.LOCATIONS. apply Forall_forall. intros loc Hloc.
  apply list_elem_of_filter in Hloc as [Hok Hloc]. split; [done|].
  apply list_elem_of_fmap in Hloc as (str & -> & Hstr).
  pose proof (split_pieces ","%char ","%char (Env.string_or v EmptyString) (or_introl eq_refl))
    as Hp.
  rewrite Forall_forall in Hp. specialize (Hp _ Hstr).
  unfold Env.location_of. simpl.
  pose proof (split_pieces "|"%char ","%char str (or_intror Hp)) as Hc.
  pose proof (split_pieces "|"%char "|"%char str (or_introl eq_refl)) as Hb.
  pose proof (split_inhabited "|"%char str).
  destruct (Text.split "|" str) as [|w ws]; [done|]. simpl.
  apply Forall_cons in Hc as [? _]. apply Forall_cons in Hb as [? _]. by split.
Qed.

(** X5.  The entries are read one by one and keep their order: the
    locations of two texts written one after the other with a comma
    between them are those of the first followed by those of the second;
    an unset variable and an empty one give no location. *)
Theorem locations_of_two_texts a b :
  Env.LOCATIONS (Some (a +:+ "," +:+ b)) =
    Env.LOCATIONS (Some a) ++ Env.LOCATIONS (Some b) /\
  Env.LOCATIONS None = [] /\ Env.LOCATIONS (Some EmptyString) = [].
Proof.
  split; [|by vm_compute]. unfold Env.LOCATIONS. rewrite !string_or_empty.
  change ("," +:+ b) with (String ","%char b).
  by rewrite split_app, fmap_app, filter_app.
Qed.

(** X6.  An entry [name|lat|lon] whose name is not empty, whose three
    fields hold no separator and whose coordinates parse to Numbers gives
    the location with that name, as it is written, and those Numbers. *)
Theorem location_of_entry n la lo :
  n <> EmptyString -> field n -> field la -> field lo ->
  Number.is_nan (Text.parseFloat la) = false ->
  Number.is_nan (Text.parseFloat lo) = false ->
  Env.LOCATIONS (Some (n +:+ "|" +:+ la +:+ "|" +:+ lo)) =
    [{| name := n; lat := Text.parseFloat la; lon := Text.parseFloat lo |}].
Proof.
  intros Hne Hn Hla Hlo Hlat Hlon. unfold Env.LOCATIONS.
  rewrite string_or_empty.
  change (n +:+ "|" +:+ la +:+ "|" +:+ lo) with (n +:+ String "|" (la +:+ String "|" lo)).
  rewrite split_whole by (by apply no_comma_entry).
  rewrite fmap_cons, fmap_nil. unfold Env.location_of.
  rewrite split_entry by done. simpl.
  by rewrite filter_cons_True, filter_nil.
Qed.

(** X7.  An entry with fewer than three fields gives no location: the
    coordinate that is not there reads as NaN. *)
Theorem short_entry_is_dropped str :
  (","%char ∉ bytes str) -> (length (Text.split "|" str) < 3)%nat ->
  Env.LOCATIONS (Some str) = [].
Proof.
  intros Hcomma Hshort. unfold Env.LOCATIONS.
  rewrite string_or_empty. rewrite split_whole by done.
  rewrite fmap_cons, fmap_nil. rewrite filter_cons_False; [done|].
  intros (_ & _ & Hlon). unfold Env.location_of in Hlon. cbn [lon] in Hlon.
  rewrite lookup_ge_None_2 in Hlon by lia.
  change (Text.ToString None) with "undefined" in Hlon.
  by rewrite parseFloat_undefined in Hlon.
Qed.

(** X8.  The threshold is never NaN and never a zero, the lookahead is
    never 0, and neither the time zone nor the schedule is empty: a
    variable that is unset, or whose value reads as NaN, as zero or as the
    empty text, gives the default (0.8, 2, [Asia/Jerusalem],
    [0 18 * * *]). *)
Theorem configuration_has_no_zero threshold days tz schedule :
  Number.is_nan (Env.THRESHOLD_METERS threshold) = false /\
  (forall s, Env.THRESHOLD_METERS threshold <> S754_zero s) /\
  (Env.THRESHOLD_METERS threshold = Number.of_ratio 8 10 \/
   Env.THRESHOLD_METERS threshold = Text.parseFloat (Text.ToString threshold)) /\
  Env.LOOKAHEAD_DAYS days <> 0 /\
  (Env.LOOKAHEAD_DAYS days = 2 \/
   Text.parseInt (Text.ToString days) = Some (Env.LOOKAHEAD_DAYS days)) /\
  Env.TZ tz <> EmptyString /\ Env.CRON_SCHEDULE schedule <> EmptyString /\
  Env.THRESHOLD_METERS None = Number.of_ratio 8 10 /\
  Env.THRESHOLD_METERS (Some "0") = Number.of_ratio 8 10 /\
  Env.LOOKAHEAD_DAYS None = 2 /\ Env.LOOKAHEAD_DAYS (Some "0") = 2 /\
  Env.TZ None = "Asia/Jerusalem" /\ Env.TZ (Some EmptyString) = "Asia/Jerusalem" /\
  Env.CRON_SCHEDULE None = "0 18 * * *".
Proof.
  assert (Ht : forall x, Number.is_nan (Env.number_or x (Number.of_ratio 8 10)) = false
            /\ (forall s, Env.number_or x (Number.of_ratio 8 10) <> S754_zero s)
            /\ (Env.number_or x (Number.of_ratio 8 10) = Number.of_ratio 8 10
                \/ Env.number_or x (Number.of_ratio 8 10) = x)).
  { intros x. change (Number.of_ratio 8 10) with (S754_finite false 7205759403792794 (-53)).
    destruct x; simpl; split_and!; auto; done. }
  unfold Env.THRESHOLD_METERS at 1 2 3 4.
  destruct (Ht (Text.parseFloat (Text.ToString threshold))) as (H1 & H2 & H3).
  split_and!; try done.
  - unfold Env.LOOKAHEAD_DAYS. by destruct (Text.parseInt _) as [[]|].
  - unfold Env.LOOKAHEAD_DAYS. destruct (Text.parseInt _) as [[]|]; auto.
  - by destruct tz as [[]|].
  - by destruct schedule as [[]|].
Qed.

End EnvProperties.

Section EnvExamples.

Lemma sample_emails_clean : Forall clean SampleEnv.emails.
Proof. apply (bool_decide_unpack _). by vm_compute. Defined.

Lemma recipients_round_trip_witness :
  Forall clean SampleEnv.emails /\
  Env.RECIPIENTS (Some (Text.join "," SampleEnv.emails)) = SampleEnv.emails.
Proof.
  split; [exact sample_emails_clean|].
  exact (recipients_round_trip SampleEnv.emails sample_emails_clean).
Defined.

Lemma location_of_entry_witness :
  "Tel Aviv" <> EmptyString /\ field "Tel Aviv" /\ field "32.0809" /\ field "34.7806" /\
  Number.is_nan (Text.parseFloat "32.0809") = false /\
  Number.is_nan (Text.parseFloat "34.7806") = false /\
  Env.LOCATIONS (Some ("Tel Aviv" +:+ "|" +:+ "32.0809" +:+ "|" +:+ "34.7806")) =
    [{| name := "Tel Aviv"; lat := Text.parseFloat "32.0809";
        lon := Text.parseFloat "34.7806" |}].
Proof.
  assert (H0 : "Tel Aviv" <> EmptyString) by discriminate.
  assert (H1 : field "Tel Aviv") by (apply (bool_decide_unpack _); by vm_compute).
  assert (H2 : field "32.0809") by (apply (bool_decide_unpack _); by vm_compute).
  assert (H3 : field "34.7806") by (apply (bool_decide_unpack _); by vm_compute).
  assert (H4 : Number.is_nan (Text.parseFloat "32.0809") = false) by (by vm_compute).
  assert (H5 : Number.is_nan (Text.parseFloat "34.7806") = false) by (by vm_compute).
  split_and!; try assumption.
  exact (location_of_entry "Tel Aviv" "32.0809" "34.7806" H0 H1 H2 H3 H4 H5).
Defined.

Lemma short_entry_is_dropped_witness :
  (","%char ∉ bytes "Haifa|32.7940") /\
  (length (Text.split "|" "Haifa|32.7940") < 3)%nat /\
  Env.LOCATIONS (Some "Haifa|32.7940") = [].
Proof.
  assert (H0 : ","%char ∉ bytes "Haifa|32.7940")
    by (apply (bool_decide_unpack _); by vm_compute).
  assert (H1 : (length (Text.split "|" "Haifa|32.7940") < 3)%nat) by (simpl; lia).
  split; [exact H0|]. split; [exact H1|].
  exact (short_entry_is_dropped "Haifa|32.7940" H0 H1).
Defined.

End EnvExamples.

(** ** The detectors: further properties *)

Section DetectorMore.
Context `{Platform}.

Lemma hours_prefix ts rest hs : hours ts hs `prefix_of` hours (ts ++ rest) hs.
Proof.
  revert hs. induction ts as [|t ts IH]; intros hs; [apply prefix_nil|].
  destruct hs as [|h hs]; [apply prefix_nil|]. simpl. by apply prefix_cons.
Qed.

Lemma filter_prefix {A} (P : A -> Prop) `{!forall x, Decision (P x)} (l1 l2 : list A) :
  l1 `prefix_of` l2 -> filter P l1 `prefix_of` filter P l2.
Proof. intros [k ->]. rewrite filter_app. by apply prefix_app_r. Qed.

Lemma filter_sublist_impl {A} (P Q : A -> Prop)
    `{!forall x, Decision (P x)} `{!forall x, Decision (Q x)} (l : list A) :
  (forall x, P x -> Q x) -> filter P l `sublist_of` filter Q l.
Proof.
  intros HPQ. induction l as [|x l IH]; [done|]. rewrite !filter_cons.
  destruct (decide (P x)) as [HP|HP].
  - rewrite decide_True by auto. by apply sublist_skip.
  - destruct (decide (Q x)); [by apply sublist_cons|done].
Qed.

Lemma filter_agree {A} (P Q : A -> Prop)
    `{!forall x, Decision (P x)} `{!forall x, Decision (Q x)} (l : list A) :
  (forall x, x ∈ l -> (P x <-> Q x)) -> filter P l = filter Q l.
Proof.
  induction l as [|x l IH]; intros HPQ; [done|]. rewrite !filter_cons.
  rewrite IH by (intros y Hy; apply HPQ; by right).
  destruct (decide (P x)) as [HP|HP], (decide (Q x)) as [HQ|HQ]; try done;
    exfalso; [apply HQ|apply HP]; by apply (HPQ x); [left|].
Qed.

Lemma until_after_later c c' ts :
  c <= c' -> until_after c ts `prefix_of` until_after c' ts.
Proof.
  intros Hc. induction ts as [|t ts IH]; [done|]. simpl.
  destruct (after t c) eqn:Ea; [apply prefix_nil|].
  assert (after t c' = false) as ->; [|by apply prefix_cons].
  unfold after in *. destruct (date_value t); [|done].
  apply Z.ltb_ge in Ea. apply Z.ltb_ge. lia.
Qed.

Lemma until_after_take c n ts : until_after c (take n ts) = take n (until_after c ts).
Proof.
  revert n. induction ts as [|t ts IH]; intros [|n]; simpl; try done;
    destruct (after t c); simpl; try done. by rewrite IH.
Qed.

Lemma hours_take n ts hs :
  (Nat.min (length ts) (length hs) <= n)%nat ->
  hours (take n ts) (take n hs) = hours ts hs.
Proof.
  intros Hn. unfold hours. rewrite <- zip_with_take. apply take_ge.
  by rewrite length_zip_with.
Qed.

Lemma visit_without_heights tm thr cutoff t i hits :
  IndexJs.visit {| time := tm; wave_height := None |} thr cutoff t i hits =
    if after t cutoff then Ok hits else Throw (ReadIndexOfUndefined i).
Proof. unfold IndexJs.visit. by destruct (after t cutoff). Qed.

(** Without heights the full scan throws at the first hour that is not
    after the cutoff. *)
Lemma forEach_without_heights tm thr cutoff ts : forall i hits,
  forEach (IndexJs.visit {| time := tm; wave_height := None |} thr cutoff) ts i hits =
    match list_find (fun t => after t cutoff = false) ts with
    | Some (j, _) => Throw (ReadIndexOfUndefined (i + j))
    | None => Ok hits
    end.
Proof.
  induction ts as [|t ts IH]; intros i hits; [done|].
  assert (list_find (fun t => after t cutoff = false) (t :: ts) =
            if decide (after t cutoff = false) then Some (0%nat, t)
            else prod_map S id <$> list_find (fun t => after t cutoff = false) ts)
    as -> by reflexivity.
  cbn [forEach]. rewrite visit_without_heights.
  destruct (after t cutoff) eqn:Ea; simpl.
  - rewrite IH.
    destruct (list_find _ ts) as [[j x]|]; simpl; [|done].
    do 2 f_equal. lia.
  - do 2 f_equal. lia.
Qed.

(** X9.  A payload with timestamps but without the array of heights: the
    full scan of [src/index.js] throws the [TypeError] of the indexed read
    at the first hour that is not after the cutoff, and returns no hit
    when there is no such hour; the early stop of [src/unnamed/part_000]
    throws it at the first hour when that hour is not after the cutoff, and
    returns no hit otherwise. *)
Theorem detectors_without_heights now ts thr days :
  IndexJs.nextExceedances now (Some {| time := Some ts; wave_height := None |}) thr days =
    match list_find (fun t => after t (cutoff_of now days) = false) ts with
    | Some (i, _) => Throw (ReadIndexOfUndefined i)
    | None => Ok []
    end /\
  WaveAlert.nextExceedances now (Some {| time := Some ts; wave_height := None |}) thr days =
    match ts with
    | [] => Ok []
    | t :: _ =>
        if after t (cutoff_of now days) then Ok [] else Throw (ReadIndexOfUndefined 0)
    end.
Proof.
  split.
  - unfold IndexJs.nextExceedances. simpl. rewrite forEach_without_heights.
    by destruct (list_find _ ts) as [[i x]|].
  - unfold WaveAlert.nextExceedances. simpl. destruct ts as [|t ts]; [done|].
    cbn [for_index]. destruct (after t (cutoff_of now days)) eqn:Ea.
    + by destruct (visit_break {| time := Some (t :: ts); wave_height := None |}
                     thr _ t 0%nat [] Ea) as [-> _].
    + rewrite (visit_next _ _ _ _ _ _ Ea), visit_without_heights. by rewrite Ea.
Qed.

(** X10.  On every series the early stop returns a prefix of what the
    full scan returns. *)
Theorem early_stop_returns_a_prefix now ts hs thr days :
  exists early full,
    WaveAlert.nextExceedances now (series ts hs) thr days = Ok early /\
    IndexJs.nextExceedances now (series ts hs) thr days = Ok full /\
    early `prefix_of` full.
Proof.
  rewrite index_detector, early_detector. do 2 eexists. split_and!; [done..|].
  apply filter_prefix.
  destruct (until_after_prefix (cutoff_of now days) ts) as [rest Hrest].
  rewrite Hrest at 2. apply hours_prefix.
Qed.

(** X11.  Raising the threshold only removes hits: with [low <= high],
    what a detector returns for [high] is a subsequence of what it returns
    for [low]. *)
Theorem higher_threshold_fewer_hits now ts hs low high days :
  SFleb low high = true ->
  (exists few many,
     IndexJs.nextExceedances now (series ts hs) high days = Ok few /\
     IndexJs.nextExceedances now (series ts hs) low days = Ok many /\
     few `sublist_of` many) /\
  (exists few many,
     WaveAlert.nextExceedances now (series ts hs) high days = Ok few /\
     WaveAlert.nextExceedances now (series ts hs) low days = Ok many /\
     few `sublist_of` many).
Proof.
  intros Hle. rewrite !index_detector, !early_detector.
  split; do 2 eexists; (split_and!; [done..|]); apply filter_sublist_impl;
    intros x [Hw Hx]%andb_True; apply andb_True; (split; [done|]);
    apply Is_true_true; apply Is_true_true in Hx;
    unfold exceeds, Number.ge in *; by eapply SFleb_trans.
Qed.

(** X12.  Looking further ahead only adds hits: with [days <= more], what
    a detector returns for [days] is a subsequence of what it returns for
    [more]. *)
Theorem longer_lookahead_more_hits now ts hs thr days more :
  days <= more ->
  (exists few many,
     IndexJs.nextExceedances now (series ts hs) thr days = Ok few /\
     IndexJs.nextExceedances now (series ts hs) thr more = Ok many /\
     few `sublist_of` many) /\
  (exists few many,
     WaveAlert.nextExceedances now (series ts hs) thr days = Ok few /\
     WaveAlert.nextExceedances now (series ts hs) thr more = Ok many /\
     few `sublist_of` many).
Proof.
  intros Hle. rewrite !index_detector, !early_detector.
  assert (Hc : cutoff_of now days <= cutoff_of now more) by (unfold cutoff_of; lia).
  assert (Himpl : forall x : hit,
            negb (after (iso x) (cutoff_of now days)) && exceeds thr x ->
            negb (after (iso x) (cutoff_of now more)) && exceeds thr x).
  { intros x [Hw Hx]%andb_True. apply andb_True. split; [|done].
    apply Is_true_true. apply Is_true_true in Hw.
    apply negb_true_iff in Hw. apply negb_true_iff.
    unfold after in *. destruct (date_value (iso x)); [|done].
    apply Z.ltb_ge in Hw. apply Z.ltb_ge. lia. }
  split; do 2 eexists; (split_and!; [done..|]).
  - by apply filter_sublist_impl.
  - etrans;
      [apply (filter_sublist_impl _
                (fun x : hit => negb (after (iso x) (cutoff_of now more)) && exceeds thr x));
       exact Himpl|].
    apply filter_sublist.
    destruct (until_after_later _ _ ts Hc) as [rest ->].
    apply hours_prefix_sublist.
Qed.

(** X13.  Only the hours that have both a timestamp and a height count:
    cutting the two arrays to the length of the shorter one changes no
    result. *)
Theorem longer_array_is_ignored now ts hs thr days :
  let n := Nat.min (length ts) (length hs) in
  IndexJs.nextExceedances now (series ts hs) thr days =
    IndexJs.nextExceedances now (series (take n ts) (take n hs)) thr days /\
  WaveAlert.nextExceedances now (series ts hs) thr days =
    WaveAlert.nextExceedances now (series (take n ts) (take n hs)) thr days.
Proof.
  intros n. rewrite !index_detector, !early_detector.
  rewrite hours_take by done. split; [done|].
  rewrite until_after_take. do 2 f_equal.
  assert (Hu : (length (until_after (cutoff_of now days) ts) <= length ts)%nat).
  { destruct (until_after_prefix (cutoff_of now days) ts) as [rest Hrest].
    apply (f_equal length) in Hrest. rewrite length_app in Hrest. lia. }
  set (u := until_after (cutoff_of now days) ts) in *.
  unfold hours. rewrite <- zip_with_take. symmetry. apply take_ge.
  rewrite length_zip_with. subst n. lia.
Qed.

(** X14.  The full scan of [src/index.js] never removes an hour whose
    timestamp is no date: on every series such an hour is among the hits as
    soon as its height reaches the threshold, whatever the clock and the
    lookahead.  On a series none of whose timestamps is a date, both
    detectors return every hour that reaches the threshold, and the hits
    fall into the one bucket [Invalid Date]. *)
Theorem undated_hours_are_kept now ts hs thr days :
  (exists hits,
     IndexJs.nextExceedances now (series ts hs) thr days = Ok hits /\
     forall x, x ∈ hours ts hs -> date_value (iso x) = None ->
               exceeds thr x = true -> x ∈ hits) /\
  (Forall (fun t => date_value t = None) ts ->
   let kept := filter (fun x => exceeds thr x) (hours ts hs) in
   IndexJs.nextExceedances now (series ts hs) thr days = Ok kept /\
   WaveAlert.nextExceedances now (series ts hs) thr days = Ok kept /\
   (kept <> [] -> group_by_day kept = [("Invalid Date", kept)])).
Proof.
  split.
  { rewrite index_detector. eexists. split; [done|]. intros x Hx Hnone Hex.
    apply list_elem_of_filter. split; [|done].
    unfold after. by rewrite Hnone, Hex. }
  intros Hnone kept.
  assert (Hafter : forall c t, t ∈ ts -> after t c = false).
  { intros c t Ht. rewrite Forall_forall in Hnone. unfold after. by rewrite Hnone. }
  assert (Huntil : until_after (cutoff_of now days) ts = ts).
  { clear -Hafter. induction ts as [|t ts IH]; [done|]. simpl.
    rewrite Hafter by left. rewrite IH; [done|]. intros c t' Ht'. apply Hafter. by right. }
  rewrite index_detector, early_detector, Huntil.
  assert (Hin : forall x, x ∈ hours ts hs -> iso x ∈ ts).
  { intros x Hx. unfold hours in Hx.
    by apply elem_of_zip_with in Hx as (a & b & -> & Ha & _). }
  assert (filter (fun x => negb (after (iso x) (cutoff_of now days)) && exceeds thr x)
            (hours ts hs) = kept) as ->.
  { subst kept. apply filter_agree. intros x Hx.
    by rewrite (Hafter _ _ (Hin x Hx)). }
  split_and!; [done..|]. intros Hne.
  assert (Hlabel : Forall (fun x => weekday_label (iso x) = "Invalid Date") kept).
  { apply Forall_forall. intros x [_ Hx]%list_elem_of_filter.
    rewrite Forall_forall in Hnone. unfold weekday_label. by rewrite (Hnone _ (Hin x Hx)). }
  clear -Hne Hlabel. induction kept as [|x kept IH] using rev_ind; [done|].
  apply Forall_app in Hlabel as [Hk Hx]. apply Forall_cons in Hx as [Hx _].
  rewrite group_by_day_snoc, Hx. destruct kept as [|y kept]; [done|].
  rewrite IH by done. simpl. done.
Qed.

End DetectorMore.

Section DetectorMoreExamples.
#[local] Existing Instance Utc.platform.

Lemma sample_thresholds : SFleb SampleEnv.threshold_low SampleEnv.threshold_high = true.
Proof. by vm_compute. Defined.

Lemma higher_threshold_fewer_hits_witness :
  SFleb SampleEnv.threshold_low SampleEnv.threshold_high = true /\
  (exists few many,
     IndexJs.nextExceedances Sample.now (series Sample.times Sample.heights)
       SampleEnv.threshold_high 2 = Ok few /\
     IndexJs.nextExceedances Sample.now (series Sample.times Sample.heights)
       SampleEnv.threshold_low 2 = Ok many /\
     few `sublist_of` many) /\
  (exists few many,
     WaveAlert.nextExceedances Sample.now (series Sample.times Sample.heights)
       SampleEnv.threshold_high 2 = Ok few /\
     WaveAlert.nextExceedances Sample.now (series Sample.times Sample.heights)
       SampleEnv.threshold_low 2 = Ok many /\
     few `sublist_of` many).
Proof.
  split; [exact sample_thresholds|].
  exact (higher_threshold_fewer_hits Sample.now Sample.times Sample.heights
           SampleEnv.threshold_low SampleEnv.threshold_high 2 sample_thresholds).
Defined.

Lemma sample_lookaheads : 1 <= 2.
Proof. lia. Defined.

Lemma longer_lookahead_more_hits_witness :
  1 <= 2 /\
  (exists few many,
     IndexJs.nextExceedances Sample.now (series Sample.times Sample.heights)
       SampleEnv.threshold_low 1 = Ok few /\
     IndexJs.nextExceedances Sample.now (series Sample.times Sample.heights)
       SampleEnv.threshold_low 2 = Ok many /\
     few `sublist_of` many) /\
  (exists few many,
     WaveAlert.nextExceedances Sample.now (series Sample.times Sample.heights)
       SampleEnv.threshold_low 1 = Ok few /\
     WaveAlert.nextExceedances Sample.now (series Sample.times Sample.heights)
       SampleEnv.threshold_low 2 = Ok many /\
     few `sublist_of` many).
Proof.
  split; [exact sample_lookaheads|].
  exact (longer_lookahead_more_hits Sample.now Sample.times Sample.heights
           SampleEnv.threshold_low 1 2 sample_lookaheads).
Defined.

Lemma sample_undated : Forall (fun t => date_value t = None) SampleEnv.undated.
Proof. by repeat constructor. Defined.

Lemma undated_hours_are_kept_witness :
  Forall (fun t => date_value t = None) SampleEnv.undated /\
  let kept := filter (fun x => exceeds SampleEnv.threshold_low x)
                (hours SampleEnv.undated [Sample.cm 90; Sample.cm 50]) in
  IndexJs.nextExceedances Sample.now
    (series SampleEnv.undated [Sample.cm 90; Sample.cm 50]) SampleEnv.threshold_low 2
    = Ok kept /\
  WaveAlert.nextExceedances Sample.now
    (series SampleEnv.undated [Sample.cm 90; Sample.cm 50]) SampleEnv.threshold_low 2
    = Ok kept /\
  (kept <> [] -> group_by_day kept = [("Invalid Date", kept)]).
Proof.
  split; [exact sample_undated|].
  exact (proj2 (undated_hours_are_kept Sample.now SampleEnv.undated
                  [Sample.cm 90; Sample.cm 50] SampleEnv.threshold_low 2) sample_undated).
Defined.

End DetectorMoreExamples.

(** ** Buckets, reports and runs: further properties *)

Section ReportMore.
Context `{Platform}.

Lemma concat_push_day day h g :
  concat (push_day day h g).*2 ≡ₚ concat g.*2 ++ [h].
Proof.
  induction g as [|[d arr] g IH]; [done|]. cbn [push_day].
  destruct (String.eqb d day); rewrite !fmap_cons; cbn [snd concat].
  - by rewrite <- !app_assoc, (Permutation_app_comm [h]).
  - by rewrite IH, app_assoc.
Qed.

Lemma first_seen_snoc keys k :
  first_seen (keys ++ [k]) =
    if decide (k ∈ first_seen keys) then first_seen keys else first_seen keys ++ [k].
Proof. unfold first_seen. by rewrite fold_left_app. Qed.

Lemma weekday_label_known s : weekday_label s ∈ day_labels.
Proof.
  unfold weekday_label, day_labels. destruct (date_value s) as [t|]; [|left].
  right. apply list_elem_of_fmap_2. destruct (weekday_in_tz t); apply list_elem_of_In; simpl; tauto.
Qed.

(** X15.  Grouping loses no hit and repeats none: the buckets, one after
    the other, hold the hits of the list, each exactly once. *)
Theorem buckets_partition_the_hits hits :
  concat (group_by_day hits).*2 ≡ₚ hits.
Proof.
  induction hits as [|h hits IH] using rev_ind; [done|].
  by rewrite group_by_day_snoc, concat_push_day, IH.
Qed.

(** X16.  The buckets come in the order in which their labels are first
    seen in the list of hits, not in the order of the calendar. *)
Theorem buckets_in_order_of_first_hit hits :
  (group_by_day hits).*1 = first_seen ((fun h => weekday_label (iso h)) <$> hits).
Proof.
  induction hits as [|h hits IH] using rev_ind; [done|].
  rewrite group_by_day_snoc, keys_push_day, fmap_app.
  change ((fun h0 => weekday_label (iso h0)) <$> [h]) with [weekday_label (iso h)].
  by rewrite first_seen_snoc, IH.
Qed.

(** X17.  There are never more than eight buckets: one for each day of
    the week and one for the timestamps that are no dates. *)
Theorem at_most_eight_buckets hits : (length (group_by_day hits) <= 8)%nat.
Proof.
  rewrite <- (length_fmap fst).
  change 8%nat with (length day_labels).
  apply submseteq_length, NoDup_submseteq; [apply NoDup_keys|].
  intros day Hday. apply list_elem_of_fmap in Hday as ([d arr] & -> & Hin).
  apply buckets_inhabited in Hin as [-> Hne]. simpl.
  destruct (on_day d hits) as [|x l] eqn:E; [done|].
  assert (x ∈ on_day d hits) as Hx by (rewrite E; left).
  apply list_elem_of_filter in Hx as [<- _]. apply weekday_label_known.
Qed.

Variable detect : Z -> option hourly_data -> number -> Z -> result (list hit).
Variable WAVE : string.
Variable GE : string.

(** X18.  When the detector returns at least one hit, [checkLocation]
    returns the header, the threshold line and then one peak line for each
    bucket, in the order of the buckets: the line of a hit of that bucket.
    The reduction never meets an empty bucket. *)
Theorem report_lists_one_peak_per_bucket cfg loc o now payload h hits :
  fetchWaveForecast o = Ok payload ->
  detect now (hourly payload) (THRESHOLD_METERS cfg) (LOOKAHEAD_DAYS cfg) = Ok (h :: hits) ->
  exists lines,
    checkLocation_with detect WAVE GE cfg loc o now =
      Ok (String.concat newline (header_line WAVE loc :: threshold_line cfg :: lines)) /\
    length lines = length (group_by_day (h :: hits)) /\
    Forall2 (fun entry line =>
               exists max, reduce higher entry.2 = Ok max /\ max ∈ entry.2 /\
                           line = peak_text entry.1 max)
      (group_by_day (h :: hits)) lines.
Proof.
  intros Hf Hd.
  destruct (try_block_hits detect WAVE GE cfg loc o now payload h hits Hf Hd)
    as (lines & Hbody & Hlines).
  exists lines. split_and!.
  - by rewrite checkLocation_block, Hbody.
  - symmetry. by eapply Forall2_length.
  - eapply Forall2_impl; [exact Hlines|]. intros [day arr] line (max & Hmax & ->).
    exists max. split_and!; [done| |done].
    simpl in *. destruct arr as [|a rest]; [done|]. injection Hmax as <-.
    apply fold_higher_elem_of.
Qed.

End ReportMore.

Section RunMore.
Context `{Platform}.

(** X19.  Every run calls the mail transport exactly once, with as many
    blocks as there are locations, joined by blank lines, and logs a
    failure of the transport instead of throwing it; with no location the
    text is empty.  The sequential run of [src/unnamed/part_000] never
    rejects. *)
Theorem every_run_mails_once cfg send run :
  (exists texts,
     length texts = length run /\
     IndexJs.runOnce cfg send run =
       [Checking (length run); Mail (String.concat blank_line texts);
        match send (String.concat blank_line texts) with
        | Ok _ => MailSent
        | Throw err => MailError (message err)
        end]) /\
  (exists texts,
     length texts = length run /\
     WaveAlert.runOnce cfg send run =
       [Checking (length run); Mail (String.concat blank_line texts);
        match send (String.concat blank_line texts) with
        | Ok _ => MailSent
        | Throw err => MailError (message err)
        end]) /\
  IndexJs.runOnce cfg send [] =
    [Checking 0; Mail EmptyString;
     match send EmptyString with
     | Ok _ => MailSent
     | Throw err => MailError (message err)
     end].
Proof.
  split_and!.
  - exists (blocks cfg run). split; [apply length_fmap|apply runOnce_mails_blocks].
  - exists ((fun '(loc, obs) =>
        block_of (try_block WaveAlert.nextExceedances WaveAlert.WAVE WaveAlert.GE
                    cfg loc (outcome obs) (clock obs)) loc) <$> run).
    split; [apply length_fmap|]. unfold WaveAlert.runOnce.
    rewrite (mapM_total _ (fun '(loc, obs) =>
      block_of (try_block WaveAlert.nextExceedances WaveAlert.WAVE WaveAlert.GE
                  cfg loc (outcome obs) (clock obs)) loc)).
    + by destruct (send _).
    + intros [loc obs]. apply checkLocation_block.
  - by rewrite runOnce_mails_blocks.
Qed.

(** X20.  With one and the same runtime (time zone), configuration
    (threshold and lookahead), location, response and clock, and with the
    same two signs, [checkLocation] built on the full scan of
    [src/index.js] and [checkLocation] built on the early stop of
    [src/unnamed/part_000] return the same text whenever the timestamps of
    the payload are ascending: on such a payload the choice of the loop
    does not show in the report. *)
Theorem reports_agree_on_ascending WAVE GE cfg loc ok st ts wh now :
  ascending ts ->
  let o := Response ok st
             (Json {| hourly := Some {| time := Some ts; wave_height := wh |} |}) in
  checkLocation_with IndexJs.nextExceedances WAVE GE cfg loc o now =
    checkLocation_with WaveAlert.nextExceedances WAVE GE cfg loc o now.
Proof.
  intros Hasc o. unfold checkLocation_with, try_block. subst o.
  destruct ok; simpl; [|done].
  unfold IndexJs.nextExceedances, WaveAlert.nextExceedances. simpl.
  by rewrite (loops_agree _ _ _ ts 0%nat [] (ascending_settled _ _ Hasc)).
Qed.

End RunMore.

Section ReportMoreExamples.
#[local] Existing Instance Utc.platform.

Lemma sample_fetch :
  fetchWaveForecast (delivers Sample.times Sample.heights) =
    Ok {| hourly := series Sample.times Sample.heights |}.
Proof. reflexivity. Defined.

Lemma sample_hits :
  IndexJs.nextExceedances Sample.now
    (hourly {| hourly := series Sample.times Sample.heights |})
    (THRESHOLD_METERS Sample.cfg) (LOOKAHEAD_DAYS Sample.cfg) =
    Ok (SampleEnv.first_hit :: SampleEnv.other_hits).
Proof. by vm_compute. Defined.

Lemma report_lists_one_peak_per_bucket_witness :
  fetchWaveForecast (delivers Sample.times Sample.heights) =
    Ok {| hourly := series Sample.times Sample.heights |} /\
  IndexJs.nextExceedances Sample.now
    (hourly {| hourly := series Sample.times Sample.heights |})
    (THRESHOLD_METERS Sample.cfg) (LOOKAHEAD_DAYS Sample.cfg) =
    Ok (SampleEnv.first_hit :: SampleEnv.other_hits) /\
  exists lines,
    checkLocation_with IndexJs.nextExceedances IndexJs.WAVE IndexJs.GE
      Sample.cfg Sample.tel_aviv (delivers Sample.times Sample.heights) Sample.now =
      Ok (String.concat newline
            (header_line IndexJs.WAVE Sample.tel_aviv :: threshold_line Sample.cfg :: lines)) /\
    length lines = length (group_by_day (SampleEnv.first_hit :: SampleEnv.other_hits)) /\
    Forall2 (fun entry line =>
               exists max, reduce higher entry.2 = Ok max /\ max ∈ entry.2 /\
                           line = peak_text entry.1 max)
      (group_by_day (SampleEnv.first_hit :: SampleEnv.other_hits)) lines.
Proof.
  split; [exact sample_fetch|]. split; [exact sample_hits|].
  exact (report_lists_one_peak_per_bucket IndexJs.nextExceedances IndexJs.WAVE IndexJs.GE
           Sample.cfg Sample.tel_aviv (delivers Sample.times Sample.heights) Sample.now
           {| hourly := series Sample.times Sample.heights |}
           SampleEnv.first_hit SampleEnv.other_hits sample_fetch sample_hits).
Defined.

Lemma reports_agree_on_ascending_witness :
  ascending Sample.times /\
  let o := Response true 200
             (Json {| hourly := Some {| time := Some Sample.times;
                                        wave_height := Some Sample.heights |} |}) in
  checkLocation_with IndexJs.nextExceedances WaveAlert.WAVE WaveAlert.GE
    Sample.cfg Sample.tel_aviv o Sample.now =
  checkLocation_with WaveAlert.nextExceedances WaveAlert.WAVE WaveAlert.GE
    Sample.cfg Sample.tel_aviv o Sample.now.
Proof.
  split; [exact sample_ascending|].
  exact (reports_agree_on_ascending WaveAlert.WAVE WaveAlert.GE Sample.cfg Sample.tel_aviv
           true 200 Sample.times (Some Sample.heights) Sample.now sample_ascending).
Defined.

End ReportMoreExamples.

(** ** Rounding never makes a NaN *)

Section RoundingFacts.

Lemma shr_1_sign mrs : 0 <= shr_m mrs -> 0 <= shr_m (shr_1 mrs).
Proof. destruct mrs as [[|[p|p|]|[p|p|]] r s]; simpl; lia. Qed.

Lemma iter_pos_keeps {A} (P : A -> Prop) (f : A -> A) :
  (forall x, P x -> P (f x)) -> forall p x, P x -> P (SpecFloat.iter_pos f p x).
Proof. intros Hf. induction p as [p IH|p IH|]; simpl; auto. Qed.

Lemma shr_sign mrs e n : 0 <= shr_m mrs -> 0 <= shr_m (shr mrs e n).1.
Proof.
  intros Hm. destruct n; simpl; try done.
  by apply (iter_pos_keeps (fun r => 0 <= shr_m r)); [apply shr_1_sign|].
Qed.

Lemma shr_fexp_sign prec emax m e l :
  0 <= m -> 0 <= shr_m (shr_fexp prec emax m e l).1.
Proof.
  intros Hm. unfold shr_fexp. apply shr_sign. by destruct l as [|[]].
Qed.

Lemma round_nearest_even_sign m l : 0 <= m -> 0 <= round_nearest_even m l.
Proof.
  intros Hm. destruct l as [|[]]; simpl; try lia. destruct (Z.even m); lia.
Qed.

Lemma binary_round_aux_number prec emax s m e l :
  0 <= m -> Number.is_nan (binary_round_aux prec emax s m e l) = false.
Proof.
  intros Hm. unfold binary_round_aux.
  pose proof (shr_fexp_sign prec emax m e l Hm) as H1.
  destruct (shr_fexp prec emax m e l) as [mrs' e']. simpl in H1.
  pose proof (shr_fexp_sign prec emax _ e' loc_Exact
                (round_nearest_even_sign _ (loc_of_shr_record mrs') H1)) as H2.
  destruct (shr_fexp prec emax _ e' loc_Exact) as [mrs'' e'']. simpl in H2.
  destruct (shr_m mrs'') as [|p|p]; [done| |lia].
  by destruct (e'' <=? emax - prec).
Qed.

Lemma binary_normalize_number prec emax m e s :
  Number.is_nan (binary_normalize prec emax m e s) = false.
Proof.
  destruct m as [|p|p]; simpl; [done| |]; unfold binary_round;
    destruct (shl_align _ _ _) as [mz ez]; by apply binary_round_aux_number.
Qed.

Lemma round_number x : Number.is_nan x = false -> Number.is_nan (Number.round x) = false.
Proof.
  destruct x as [| | |s m e]; simpl; try done. intros _.
  destruct (0 <=? e); [done|]. apply binary_normalize_number.
Qed.

Lemma times_hundred_number x :
  Number.is_nan x = false -> Number.is_nan (Number.mul x (Number.of_Z 100)) = false.
Proof.
  change (Number.of_Z 100) with (S754_finite false 7036874417766400 (-46)).
  destruct x as [| | |s m e]; simpl; try done. intros _.
  by apply binary_round_aux_number.
Qed.

End RoundingFacts.

Section RoundingProperties.
Context `{Platform}.

(** X21.  No hit carries a height that is [undefined] or NaN, and the
    centimetres [metersToCm] computes for a hit are never NaN: what a
    detector returns can always be compared and printed as a number. *)
Theorem hits_have_numbers now payload thr days hits :
  IndexJs.nextExceedances now payload thr days = Ok hits \/
  WaveAlert.nextExceedances now payload thr days = Ok hits ->
  Forall (fun h => meters h <> HUndefined /\
                   Number.is_nan (ToNumber (meters h)) = false /\
                   Number.is_nan (metersToCm (meters h)) = false) hits.
Proof.
  intros Hd. apply detected_exceed, exceeds_comparable in Hd.
  eapply Forall_impl; [exact Hd|]. intros h Hh. simpl in Hh. split_and!; [|done|].
  - intros E. by rewrite E in Hh.
  - unfold metersToCm. by apply round_number, times_hundred_number.
Qed.

End RoundingProperties.

Section RoundingExamples.
#[local] Existing Instance Utc.platform.

Lemma sample_detected :
  IndexJs.nextExceedances Sample.now (series Sample.times Sample.heights)
    (THRESHOLD_METERS Sample.cfg) 2 = Ok (SampleEnv.first_hit :: SampleEnv.other_hits) \/
  WaveAlert.nextExceedances Sample.now (series Sample.times Sample.heights)
    (THRESHOLD_METERS Sample.cfg) 2 = Ok (SampleEnv.first_hit :: SampleEnv.other_hits).
Proof. left. by vm_compute. Defined.

Lemma hits_have_numbers_witness :
  (IndexJs.nextExceedances Sample.now (series Sample.times Sample.heights)
     (THRESHOLD_METERS Sample.cfg) 2 = Ok (SampleEnv.first_hit :: SampleEnv.other_hits) \/
   WaveAlert.nextExceedances Sample.now (series Sample.times Sample.heights)
     (THRESHOLD_METERS Sample.cfg) 2 = Ok (SampleEnv.first_hit :: SampleEnv.other_hits)) /\
  Forall (fun h => meters h <> HUndefined /\
                   Number.is_nan (ToNumber (meters h)) = false /\
                   Number.is_nan (metersToCm (meters h)) = false)
    (SampleEnv.first_hit :: SampleEnv.other_hits).
Proof.
  split; [exact sample_detected|].
  exact (hits_have_numbers Sample.now (series Sample.times Sample.heights)
           (THRESHOLD_METERS Sample.cfg) 2 (SampleEnv.first_hit :: SampleEnv.other_hits)
           sample_detected).
Defined.

End RoundingExamples.
